(** * md2pptx-cli: the slide model builder and the layout engine

    A shallow embedding of [src/index.tsx]: [parseTextRuns], [parseSlides],
    [renderElements], [buildPptx] and the names [main] chooses, with the
    properties of the specification stated and proved over them.

    Conventions of the embedding.
    - A JavaScript string is the list of its UTF-16 code units ([jsstring]).
    - A JavaScript number is an exact rational ([Q]); rounding of IEEE
      doubles is not modelled.  Where a number can be [NaN] it is an
      [option Q], [None] being [NaN].
    - The cursor [yOffset] of the layout is a number or a string
      ([cursor]): a shape whose height is not a number makes it a
      string, or throws.
    - The tokens of [marked] are the input: inline tokens are [Token],
      block tokens are [Block].
    - [JSON.parse] is a builtin and is a parameter of the builder; the
      conversions between numbers and strings are parameters of the
      layout.
    - The calls made on the [pptxgenjs] slide object are recorded, in order,
      as a list of [Call]. *)

From Stdlib Require Import List NArith ZArith QArith Bool String Ascii Lia Lqa.
From Stdlib Require Import DecimalString Sorted.
Import ListNotations.

(* ------------------------------------------------------------------ *)
(** * Strings *)

Definition jsstring := list N.

(** The string of an ASCII literal. *)
Definition js (s : string) : jsstring :=
  map N_of_ascii (list_ascii_of_string s).

Fixpoint str_eqb (a b : jsstring) : bool :=
  match a, b with
  | [], [] => true
  | x :: a', y :: b' => N.eqb x y && str_eqb a' b'
  | _, _ => false
  end.

(** [ToBoolean] of a string: the empty string is the only falsy one. *)
Definition str_truthy (s : jsstring) : bool :=
  match s with [] => false | _ :: _ => true end.

(* ------------------------------------------------------------------ *)
(** * Text runs ([PptxGenJS.TextProps]) *)

Record Hyperlink := mkHyperlink { url : jsstring; tooltip : jsstring }.

(** [PptxGenJS.TextPropsOptions], restricted to the keys the program
    writes or reads.  An absent key and the key of a boolean set to
    [false] are not distinguished: the program only ever sets [true]. *)
Record TextOpts := mkTextOpts {
  bold : bool;
  italic : bool;
  fontFace : option jsstring;
  hyperlink : option Hyperlink;
  bullet : bool;
  breakLine : bool
}.

(** The object literal [{}]. *)
Definition noOptions : TextOpts :=
  mkTextOpts false false None None false false.

Definition set_bold (o : TextOpts) : TextOpts :=
  mkTextOpts true (italic o) (fontFace o) (hyperlink o) (bullet o) (breakLine o).
Definition set_italic (o : TextOpts) : TextOpts :=
  mkTextOpts (bold o) true (fontFace o) (hyperlink o) (bullet o) (breakLine o).
Definition set_fontFace (f : jsstring) (o : TextOpts) : TextOpts :=
  mkTextOpts (bold o) (italic o) (Some f) (hyperlink o) (bullet o) (breakLine o).
Definition set_hyperlink (h : Hyperlink) (o : TextOpts) : TextOpts :=
  mkTextOpts (bold o) (italic o) (fontFace o) (Some h) (bullet o) (breakLine o).
Definition set_bullet (o : TextOpts) : TextOpts :=
  mkTextOpts (bold o) (italic o) (fontFace o) (hyperlink o) true (breakLine o).

(** A run; [options] is [None] for a run built without the key, as
    [{ text: box }] is. *)
Record Run := mkRun { text : jsstring; options : option TextOpts }.

(* ------------------------------------------------------------------ *)
(** * Inline tokens *)

(** The inline tokens of [marked], by the cases of the [switch] in
    [parseTextRuns].  [TText] carries [Some ts] when the token has a
    truthy [tokens] property (any array, the empty one included).
    [TOther] is a token of any other type, with its [raw] text. *)
#[local] Unset Elimination Schemes.
Inductive Token :=
| TStrong (tokens : list Token)
| TEm (tokens : list Token)
| TCodespan (txt : jsstring)
| TLink (href : jsstring) (title : option jsstring) (tokens : list Token)
| TText (txt : jsstring) (tokens : option (list Token))
| TOther (raw : jsstring).
#[local] Set Elimination Schemes.

(** Induction over inline tokens: the induction hypothesis holds for
    every child of a token. *)

Section TokenInduction.
Variable P : Token -> Prop.
Hypothesis HStrong : forall ts, Forall P ts -> P (TStrong ts).
Hypothesis HEm : forall ts, Forall P ts -> P (TEm ts).
Hypothesis HCodespan : forall s, P (TCodespan s).
Hypothesis HLink : forall href title ts, Forall P ts -> P (TLink href title ts).
Hypothesis HTextSub : forall s ts, Forall P ts -> P (TText s (Some ts)).
Hypothesis HText : forall s, P (TText s None).
Hypothesis HOther : forall raw, P (TOther raw).

Fixpoint Token_ind (t : Token) : P t :=
  let all := fix all (ts : list Token) : Forall P ts :=
    match ts with
    | [] => @Forall_nil _ P
    | t' :: ts' => @Forall_cons _ P t' ts' (Token_ind t') (all ts')
    end in
  match t with
  | TStrong ts => HStrong ts (all ts)
  | TEm ts => HEm ts (all ts)
  | TCodespan s => HCodespan s
  | TLink href title ts => HLink href title ts (all ts)
  | TText s (Some ts) => HTextSub s ts (all ts)
  | TText s None => HText s
  | TOther raw => HOther raw
  end.
End TokenInduction.

(** [token.title || token.href] *)
Definition link_tooltip (href : jsstring) (title : option jsstring) : jsstring :=
  match title with
  | Some t => if str_truthy t then t else href
  | None => href
  end.

Definition courier : jsstring := js "Courier New".
Definition space : jsstring := js " ".

(** The body of the [for] loop of [parseTextRuns] for one token. *)
Fixpoint parseToken (token : Token) (parentOptions : TextOpts) : list Run :=
  let currentOptions := parentOptions in
  match token with
  | TStrong ts =>
      flat_map (fun t => parseToken t (set_bold currentOptions)) ts
  | TEm ts =>
      flat_map (fun t => parseToken t (set_italic currentOptions)) ts
  | TCodespan s =>
      [mkRun (space ++ s ++ space) (Some (set_fontFace courier currentOptions))]
  | TLink href title ts =>
      let linkOptions :=
        set_hyperlink (mkHyperlink href (link_tooltip href title)) currentOptions in
      flat_map (fun t => parseToken t linkOptions) ts
  | TText s (Some ts) =>
      flat_map (fun t => parseToken t currentOptions) ts
  | TText s None =>
      [mkRun s (Some currentOptions)]
  | TOther raw =>
      if str_truthy raw then [mkRun raw (Some currentOptions)] else []
  end.

Definition parseTextRuns (tokens : list Token) (parentOptions : TextOpts) : list Run :=
  flat_map (fun t => parseToken t parentOptions) tokens.

(* ------------------------------------------------------------------ *)
(** * Character classes, [trim] and the three paragraph patterns *)

(** [WhiteSpace] and [LineTerminator] code units: what [\s] matches and
    what [String.prototype.trim] removes. *)
Definition is_ws (c : N) : bool :=
  ((9 <=? c) && (c <=? 13) || (c =? 32) || (c =? 160) || (c =? 5760)
   || (8192 <=? c) && (c <=? 8202) || (c =? 8232) || (c =? 8233)
   || (c =? 8239) || (c =? 8287) || (c =? 12288) || (c =? 65279))%N.

(** Line terminators: the code units [.] does not match. *)
Definition is_lt (c : N) : bool :=
  ((c =? 10) || (c =? 13) || (c =? 8232) || (c =? 8233))%N.

Definition is_dot (c : N) : bool := negb (is_lt c).

Fixpoint dropWhile (p : N -> bool) (s : jsstring) : jsstring :=
  match s with
  | [] => []
  | c :: r => if p c then dropWhile p r else s
  end.

Fixpoint takeWhile (p : N -> bool) (s : jsstring) : jsstring :=
  match s with
  | [] => []
  | c :: r => if p c then c :: takeWhile p r else []
  end.

Definition trim (s : jsstring) : jsstring :=
  rev (dropWhile is_ws (rev (dropWhile is_ws s))).

(** [Some r] when [s] is [p] followed by [r]. *)
Fixpoint strip_prefix (p s : jsstring) : option jsstring :=
  match p, s with
  | [], _ => Some s
  | a :: p', b :: s' => if N.eqb a b then strip_prefix p' s' else None
  | _ :: _, [] => None
  end.

Definition ch_rbracket : N := 93.   (* ] *)
Definition ch_lparen : N := 40.     (* ( *)
Definition ch_rparen : N := 41.     (* ) *)

(** The source text of the three patterns. *)
Definition notePattern : string := "^>\s*Note:\s*(.*)".
Definition imgPattern : string := "^!\[([^\]]*)\]\(([^)]+)\)$".
Definition shapePattern : string := "^!shape\[(.*)\]\((.*)\)$".

(** Group 1 of [notePattern].  Both white-space stars are greedy and
    what follows each cannot start with white space, so backtracking
    never changes the outcome; the group stops at the first line
    terminator. *)
Definition noteMatch (t : jsstring) : option jsstring :=
  match strip_prefix (js ">") t with
  | Some r1 =>
      match strip_prefix (js "Note:") (dropWhile is_ws r1) with
      | Some r2 => Some (takeWhile is_dot (dropWhile is_ws r2))
      | None => None
      end
  | None => None
  end.

(** Groups 1 and 2 of [imgPattern]. *)
Definition imgMatch (t : jsstring) : option (jsstring * jsstring) :=
  match strip_prefix (js "![") t with
  | Some r =>
      let notRB := fun c => negb (N.eqb c ch_rbracket) in
      let notRP := fun c => negb (N.eqb c ch_rparen) in
      match strip_prefix (js "](") (dropWhile notRB r) with
      | Some r2 =>
          match takeWhile notRP r2, dropWhile notRP r2 with
          | (_ :: _) as g2, [_] => Some (takeWhile notRB r, g2)
          | _, _ => None
          end
      | None => None
      end
  | None => None
  end.

(** The split of [s] at its last occurrence of ["]("]: what the greedy
    first group of the shape pattern selects. *)
Fixpoint splitLast (s : jsstring) : option (jsstring * jsstring) :=
  match s with
  | [] => None
  | c :: r =>
      match splitLast r with
      | Some (a, b) => Some (c :: a, b)
      | None =>
          match r with
          | d :: r' =>
              if N.eqb c ch_rbracket && N.eqb d ch_lparen
              then Some ([], r') else None
          | [] => None
          end
      end
  end.

(** [Some r] when [s] is [r] followed by [")"]. *)
Definition strip_rparen (s : jsstring) : option jsstring :=
  match rev s with
  | c :: r => if N.eqb c ch_rparen then Some (rev r) else None
  | [] => None
  end.

(** Groups 1 and 2 of [shapePattern].  The pattern is
    anchored at both ends, so every code unit is matched by a literal or
    by [.]: a line terminator anywhere makes it fail. *)
Definition shapeMatch (t : jsstring) : option (jsstring * jsstring) :=
  match strip_prefix (js "!shape[") t with
  | Some r =>
      if forallb is_dot r then
        match splitLast r with
        | Some (g1, rest) =>
            match strip_rparen rest with
            | Some g2 => Some (g1, g2)
            | None => None
            end
        | None => None
        end
      else None
  | None => None
  end.

(* ------------------------------------------------------------------ *)
(** * JSON values and objects *)

(** What [JSON.parse] returns.  The properties of an object are listed
    in the order they were defined; a later binding of a key overrides
    an earlier one. *)
#[local] Unset Elimination Schemes.
Inductive json :=
| JNull
| JBool (b : bool)
| JNum (q : Q)
| JStr (s : jsstring)
| JArr (items : list json)
| JObj (props : list (jsstring * json)).
#[local] Set Elimination Schemes.

(** An object under construction: its own properties, the last binding
    of a key being the current one. *)
Definition object := list (jsstring * json).

(** [o[k]] on own properties; [None] is [undefined]. *)
Fixpoint own_get {V : Type} (k : jsstring) (o : list (jsstring * V)) : option V :=
  match o with
  | [] => None
  | (k', v) :: o' =>
      match own_get k o' with
      | Some v' => Some v'
      | None => if str_eqb k k' then Some v else None
      end
  end.

Definition obj_get (k : jsstring) (o : object) : option json := own_get k o.

Definition index_key (i : nat) : jsstring :=
  js (NilZero.string_of_uint (Nat.to_uint i)).

Fixpoint indexed {A : Type} (f : A -> json) (i : nat) (l : list A) : object :=
  match l with
  | [] => []
  | a :: l' => (index_key i, f a) :: indexed f (S i) l'
  end.

(** The own enumerable properties that the spread [...v] copies into an
    object literal: the properties of an object, the indexed elements of
    an array, the indexed code units of a string, nothing for [null], a
    boolean or a number. *)
Definition spread (v : json) : object :=
  match v with
  | JObj props => props
  | JArr items => indexed (fun x => x) 0 items
  | JStr s => indexed (fun c => JStr [c]) 0 s
  | JNull | JBool _ | JNum _ => []
  end.

(* ------------------------------------------------------------------ *)
(** * Shapes *)

(** The string enum [LocalShapeType]: a member is its string value. *)
Definition LocalShapeType := jsstring.
Definition RECTANGLE : LocalShapeType := js "rect".
Definition OVAL : LocalShapeType := js "ellipse".
Definition ELLIPSE : LocalShapeType := js "ellipse".
Definition LINE : LocalShapeType := js "line".
Definition TRIANGLE : LocalShapeType := js "triangle".

(** The own properties of the object literal [shapeNameMap]. *)
Definition shapeNameMap : list (jsstring * LocalShapeType) :=
  [ (js "rect", RECTANGLE);
    (js "oval", OVAL);
    (js "ellipse", ELLIPSE);
    (js "line", LINE);
    (js "triangle", TRIANGLE) ].

(** The property names of [Object.prototype], which an object literal
    inherits: each holds a function, or for [__proto__] the prototype
    object itself. *)
Definition objectPrototypeKeys : list jsstring :=
  map js [ "constructor"; "__proto__"; "hasOwnProperty"; "isPrototypeOf";
           "propertyIsEnumerable"; "toLocaleString"; "toString"; "valueOf";
           "__defineGetter__"; "__defineSetter__";
           "__lookupGetter__"; "__lookupSetter__" ]%string.

(** The value of [shapeNameMap[shapeName]] when it is not [undefined]:
    a member of the enum, or a member of [Object.prototype] found along
    the prototype chain. *)
Inductive ShapeValue :=
| EnumMember (s : LocalShapeType)
| PrototypeMember (name : jsstring).

(** [shapeNameMap[shapeName]]; [None] is [undefined]. *)
Definition shapeNameMap_get (shapeName : jsstring) : option ShapeValue :=
  match own_get shapeName shapeNameMap with
  | Some s => Some (EnumMember s)
  | None =>
      if existsb (str_eqb shapeName) objectPrototypeKeys
      then Some (PrototypeMember shapeName)
      else None
  end.

(* ------------------------------------------------------------------ *)
(** * The slide model *)

Inductive SlideElement :=
| TextBlock (runs : list Run)
| Image (href alt : jsstring)
| Table (headers : list jsstring) (rows : list (list jsstring))
| Shape (shape : ShapeValue) (opts : json)
| ColumnBreak.

Record SlideData := mkSlide {
  title : jsstring;
  elements : list SlideElement;
  notes : option jsstring
}.

(** [current.elements.push(el)] *)
Definition push_element (el : SlideElement) (s : SlideData) : SlideData :=
  mkSlide (title s) (elements s ++ [el]) (notes s).

(** [current.notes = n] *)
Definition set_notes (n : jsstring) (s : SlideData) : SlideData :=
  mkSlide (title s) (elements s) (Some n).

(* ------------------------------------------------------------------ *)
(** * Block tokens *)

(** A list item: [task], the truth value of [checked], [tokens]. *)
Record ListItem := mkItem {
  task : bool;
  checked : bool;
  item_tokens : list Token
}.

(** The block tokens of [marked], by the cases of the [switch] in
    [parseSlides].  A table carries the [text] of its cells; a paragraph
    carries [None] where [token.tokens] is falsy. *)
Inductive Block :=
| Heading (depth : N) (txt : jsstring)
| Paragraph (txt : jsstring) (tokens : option (list Token))
| BList (items : list ListItem)
| BTable (header : list jsstring) (rows : list (list jsstring))
| Hr
| BOther.

(** What [console.error] is called with. *)
Inductive Diagnostic :=
| InvalidShapeName (shapeName : jsstring)
| InvalidShapeSyntax (txt : jsstring).

(** The state of the loop of [parseSlides]: the slides pushed so far,
    the slide under construction, and what was written to the console. *)
Record Builder := mkBuilder {
  slides : list SlideData;
  current : option SlideData;
  errors : list Diagnostic
}.

(** The two values of [box]: U+2611 U+FE0F U+0020 and U+2610 U+0020. *)
Definition boxChecked : jsstring := [9745; 65039; 32]%N.
Definition boxUnchecked : jsstring := [9744; 32]%N.

(** The body of the loop over the items of a list.  [None]: the item
    has no run and pushes nothing. *)
Definition listItemRuns (item : ListItem) : option (list Run) :=
  match parseTextRuns (item_tokens item) noOptions with
  | [] => None
  | r0 :: rest =>
      if task item then
        let box := if checked item then boxChecked else boxUnchecked in
        if str_truthy (text r0)
        then Some (mkRun (box ++ text r0) (options r0) :: rest)
        else Some (mkRun box None :: r0 :: rest)
      else
        let o := match options r0 with Some o => o | None => noOptions end in
        Some (mkRun (text r0) (Some (set_bullet o)) :: rest)
  end.

Definition listItem (cur : SlideData) (item : ListItem) : SlideData :=
  match listItemRuns item with
  | Some runs => push_element (TextBlock runs) cur
  | None => cur
  end.

Section SlideModelBuilder.

(** [JSON.parse]; [None] when it throws. *)
Variable JSON_parse : jsstring -> option json.

(** The [paragraph] case with a current slide: the slide and the
    console after it. *)
Definition paragraph (txt0 : jsstring) (tokens : option (list Token))
    (cur : SlideData) (log : list Diagnostic) : SlideData * list Diagnostic :=
  match noteMatch txt0 with
  | Some g1 => (set_notes (trim g1) cur, log)
  | None =>
      let txt := trim txt0 in
      match imgMatch txt with
      | Some (alt, href) => (push_element (Image href alt) cur, log)
      | None =>
          match shapeMatch txt with
          | Some (shapeName, g2) =>
              match shapeNameMap_get shapeName with
              | None => (cur, log ++ [InvalidShapeName shapeName])
              | Some shapeType =>
                  match JSON_parse g2 with
                  | Some options => (push_element (Shape shapeType options) cur, log)
                  | None => (cur, log ++ [InvalidShapeSyntax txt])
                  end
              end
          | None =>
              let runs :=
                parseTextRuns (match tokens with Some ts => ts | None => [] end)
                              noOptions in
              match runs with
              | [] => (cur, log)
              | _ :: _ => (push_element (TextBlock runs) cur, log)
              end
          end
      end
  end.

(** One iteration of the loop of [parseSlides]. *)
Definition step (st : Builder) (token : Block) : Builder :=
  match token with
  | Heading depth txt =>
      if N.eqb depth 1 then
        mkBuilder
          (match current st with Some c => slides st ++ [c] | None => slides st end)
          (Some (mkSlide txt [] None))
          (errors st)
      else st
  | Paragraph txt tokens =>
      match current st with
      | None => st
      | Some cur =>
          let (cur', log') := paragraph txt tokens cur (errors st) in
          mkBuilder (slides st) (Some cur') log'
      end
  | BList items =>
      match current st with
      | None => st
      | Some cur =>
          mkBuilder (slides st) (Some (fold_left listItem items cur)) (errors st)
      end
  | BTable header rows =>
      match current st with
      | None => st
      | Some cur =>
          mkBuilder (slides st) (Some (push_element (Table header rows) cur)) (errors st)
      end
  | Hr =>
      match current st with
      | None => st
      | Some cur =>
          mkBuilder (slides st) (Some (push_element ColumnBreak cur)) (errors st)
      end
  | BOther => st
  end.

Definition initial : Builder := mkBuilder [] None [].

(** [if (current) slides.push(current)] after the loop. *)
Definition finish (st : Builder) : list SlideData :=
  match current st with
  | Some c => slides st ++ [c]
  | None => slides st
  end.

(** [parseSlides] on the tokens of the lexer: the slides returned and
    the diagnostics written. *)
Definition parseSlides (tokens : list Block) : list SlideData * list Diagnostic :=
  let st := fold_left step tokens initial in
  (finish st, errors st).

End SlideModelBuilder.

(* ------------------------------------------------------------------ *)
(** * The layout engine *)

(** The value of [yOffset].  It is a number until a shape whose [h] is a
    string, an array or an object makes [yOffset += (h || 1) + 0.2] a
    concatenation of strings; it is a string from then on. *)
Inductive cursor :=
| CNum (q : Q)
| CStr (s : jsstring).

Coercion CNum : Q >-> cursor.
Bind Scope Q_scope with cursor.

(** A number that may be [NaN]: [None]. *)
Definition jsnum := option Q.

(** The calls made on the slide object.  The fixed options of a call
    ([autoFit], [fontSize], [lineSpacing], [bold], [autoPage]) are
    omitted. *)
Inductive Call :=
| addTitle (txt : jsstring) (x y w h : Q)
| addNotes (n : jsstring)
| addText (runs : list Run) (x : Q) (y : cursor) (w : Q) (h : jsnum)
| addImage (path : jsstring) (x : Q) (y : cursor) (w h : Q)
| addTable (tableData : list (list jsstring)) (x : Q) (y : cursor) (w : Q)
| addShape (shape : ShapeValue) (finalOptions : object).

(** How a call of [renderElements] ends: it returns [yOffset], or the
    addition of a shape's height throws a [TypeError]. *)
Inductive outcome :=
| Returned (yOffset : cursor)
| Thrown.

Definition slideHeight : Q := 5.625.
Definition bottomMargin : Q := 0.25.

(** [Math.min] of two numbers. *)
Definition Math_min (a b : Q) : Q := if Qle_bool a b then a else b.

(** [run.options?.breakLine ? 1 : 0] *)
Definition breakLineCount (run : Run) : Q :=
  match options run with
  | Some o => if breakLine o then 1 else 0
  | None => 0
  end.

(** [el.runs.reduce((acc, run) => acc + ..., 1)] *)
Definition estimatedLines (runs : list Run) : Q :=
  fold_left (fun acc run => acc + breakLineCount run) runs 1.

(** [ToBoolean] of a JSON value. *)
Definition truthy (v : json) : bool :=
  match v with
  | JNull => false
  | JBool b => b
  | JNum q => negb (Qeq_bool q 0)
  | JStr s => str_truthy s
  | JArr _ | JObj _ => true
  end.

(** [finalOptions.h || 1] *)
Definition heightOrOne (h : option json) : json :=
  match h with
  | Some v => if truthy v then v else JNum 1
  | None => JNum 1
  end.

(** [v + 0.2] where it is an addition of numbers; [None] where [v] is a
    string, an array or an object, and [+] concatenates strings. *)
Definition plusSpacing (v : json) : option Q :=
  match v with
  | JNum q => Some (q + 0.2)
  | JBool true => Some (1 + 0.2)
  | JBool false | JNull => Some (0 + 0.2)
  | JStr _ | JArr _ | JObj _ => None
  end.

(** The value of the key [y] of the options of a shape. *)
Definition cursorValue (yOffset : cursor) : json :=
  match yOffset with
  | CNum q => JNum q
  | CStr s => JStr s
  end.

(** [{ x, w, ...el.options, y: yOffset }] *)
Definition finalOptionsOf (x w : Q) (opts : json) (yOffset : cursor) : object :=
  [(js "x", JNum x); (js "w", JNum w)] ++ spread opts
  ++ [(js "y", cursorValue yOffset)].

(** A call followed by the rest of the column. *)
Definition andThen (c : Call) (r : list Call * outcome) : list Call * outcome :=
  (c :: fst r, snd r).

(** [remainingHeight <= 0.1]; a comparison with [NaN] is false. *)
Definition noRoom (remainingHeight : jsnum) : bool :=
  match remainingHeight with
  | Some r => Qle_bool r 0.1
  | None => false
  end.

Definition isColumnBreak (e : SlideElement) : bool :=
  match e with ColumnBreak => true | _ => false end.

(** [Array.prototype.findIndex] *)
Fixpoint findIndex {A : Type} (p : A -> bool) (l : list A) : Z :=
  match l with
  | [] => (-1)%Z
  | a :: l' =>
      if p a then 0%Z
      else let i := findIndex p l' in if (i =? -1)%Z then (-1)%Z else (i + 1)%Z
  end.

(** The relative index of [Array.prototype.slice]. *)
Definition relativeIndex (len k : Z) : Z :=
  if (k <? 0)%Z then Z.max (len + k) 0 else Z.min k len.

(** [l.slice(start, end)]; [end] is [None] when omitted. *)
Definition slice {A : Type} (l : list A) (start : Z) (end_ : option Z) : list A :=
  let len := Z.of_nat (List.length l) in
  let from := relativeIndex len start in
  let to := match end_ with Some e => relativeIndex len e | None => len end in
  firstn (Z.to_nat (to - from)) (skipn (Z.to_nat from) l).

Definition isThrown (o : outcome) : bool :=
  match o with Thrown => true | Returned _ => false end.

(** Three conversions of the language, parameters of the layout:
    [ToString] of a number; [ToNumber] of a string, [None] being [NaN];
    and the string that [ToPrimitive] gives for an array or an object,
    [None] when it throws a [TypeError]. *)
Record Conversions := mkConversions {
  Number_toString : Q -> jsstring;
  String_toNumber : jsstring -> jsnum;
  Object_toString : json -> option jsstring
}.

Section LayoutEngine.

Variable conv : Conversions.

(** [ToString] of a number that may be [NaN]. *)
Definition numberText (n : jsnum) : jsstring :=
  match n with
  | Some q => Number_toString conv q
  | None => js "NaN"
  end.

(** The string operand of [v + 0.2] for a [v] that is not a number;
    [None] when its conversion throws. *)
Definition textOf (v : json) : option jsstring :=
  match v with
  | JStr s => Some s
  | JArr _ | JObj _ => Object_toString conv v
  | JNull | JBool _ | JNum _ => None
  end.

(** [slideHeight - yOffset - bottomMargin] *)
Definition remainingHeight (yOffset : cursor) : jsnum :=
  match yOffset with
  | CNum q => Some (slideHeight - q - bottomMargin)
  | CStr s =>
      match String_toNumber conv s with
      | Some v => Some (slideHeight - v - bottomMargin)
      | None => None
      end
  end.

(** The [if] chain of the body of the loop of [renderElements] for one
    element: the call made and the value of [yOffset] after it, or
    [Thrown] when the addition throws after the call; [None] for an
    element that matches no branch.  The chain is written once for a
    [yOffset] that is a number and once for a [yOffset] that is a
    string: the same statements, with [-], [Math.min] and [+=] read at
    the type of [yOffset]. *)
Definition placeElement (x : Q) (y : cursor) (w : Q) (el : SlideElement)
  : option (Call * outcome) :=
  match y with
  | CNum yOffset =>
      let remainingHeight := slideHeight - yOffset - bottomMargin in
      match el with
      | TextBlock runs =>
          let estimatedHeight :=
            Math_min remainingHeight (estimatedLines runs * 0.5) in
          Some (addText runs x y w (Some estimatedHeight),
                Returned (CNum (yOffset + (estimatedHeight + 0.1))))
      | Image href alt =>
          Some (addImage href x y w 3, Returned (CNum (yOffset + 3.2)))
      | Table headers rows =>
          Some (addTable (headers :: rows) x y w,
                Returned
                  (CNum (yOffset
                         + (inject_Z (Z.of_nat (List.length rows)) * 0.5 + 0.5))))
      | Shape shape opts =>
          let finalOptions := finalOptionsOf x w opts y in
          let h := heightOrOne (obj_get (js "h") finalOptions) in
          Some (addShape shape finalOptions,
                match plusSpacing h with
                | Some advance => Returned (CNum (yOffset + advance))
                | None =>
                    match textOf h with
                    | Some t =>
                        Returned
                          (CStr (Number_toString conv yOffset
                                 ++ t ++ Number_toString conv 0.2))
                    | None => Thrown
                    end
                end)
      | ColumnBreak => None
      end
  | CStr yOffset =>
      let remainingHeight := remainingHeight y in
      match el with
      | TextBlock runs =>
          let estimatedHeight :=
            match remainingHeight with
            | Some r => Some (Math_min r (estimatedLines runs * 0.5))
            | None => None
            end in
          let advance :=
            match estimatedHeight with
            | Some e => Some (e + 0.1)
            | None => None
            end in
          Some (addText runs x y w estimatedHeight,
                Returned (CStr (yOffset ++ numberText advance)))
      | Image href alt =>
          Some (addImage href x y w 3,
                Returned (CStr (yOffset ++ Number_toString conv 3.2)))
      | Table headers rows =>
          Some (addTable (headers :: rows) x y w,
                Returned
                  (CStr (yOffset
                         ++ Number_toString conv
                              (inject_Z (Z.of_nat (List.length rows)) * 0.5 + 0.5))))
      | Shape shape opts =>
          let finalOptions := finalOptionsOf x w opts y in
          let h := heightOrOne (obj_get (js "h") finalOptions) in
          Some (addShape shape finalOptions,
                match plusSpacing h with
                | Some advance =>
                    Returned (CStr (yOffset ++ Number_toString conv advance))
                | None =>
                    match textOf h with
                    | Some t =>
                        Returned
                          (CStr (yOffset ++ t ++ Number_toString conv 0.2))
                    | None => Thrown
                    end
                end)
      | ColumnBreak => None
      end
  end.

(** [renderElements]: the calls made, in order, and how it ends. *)
Fixpoint renderElements (elems : list SlideElement) (x : Q) (y : cursor) (w : Q)
  : list Call * outcome :=
  match elems with
  | [] => ([], Returned y)
  | el :: rest =>
      if noRoom (remainingHeight y) then ([], Returned y)
      else
        match placeElement x y w el with
        | Some (call, Returned yOffset) =>
            andThen call (renderElements rest x yOffset w)
        | Some (call, Thrown) => ([call], Thrown)
        | None => renderElements rest x y w
        end
  end.

(** The columns of a slide: for each call of [renderElements] made by
    [buildPptx], its result.  The second column is not reached when the
    first one throws. *)
Definition renderColumns (elements : list SlideElement)
  : list (list Call * outcome) :=
  let breakIdx := findIndex isColumnBreak elements in
  let yPos := 1.2 in
  if (breakIdx =? -1)%Z then
    [renderElements elements 0.5 yPos 9.0]
  else
    let col1Elements := slice elements 0 (Some breakIdx) in
    let col2Elements := slice elements (breakIdx + 1) None in
    let col1 := renderElements col1Elements 0.5 yPos 4.5 in
    if isThrown (snd col1) then [col1]
    else [col1; renderElements col2Elements 5.2 yPos 4.5].

(** The body of the loop of [buildPptx] for one slide: the calls made on
    the slide object, and whether the body threw. *)
Definition buildSlide (s : SlideData) : list Call * bool :=
  let columns := renderColumns (elements s) in
  (addTitle (title s) 0.5 0.3 9.0 0.75
   :: match notes s with
      | Some n => if str_truthy n then [addNotes n] else []
      | None => []
      end
   ++ flat_map fst columns,
   existsb (fun column => isThrown (snd column)) columns).

(** [buildPptx]: the calls made on each slide added, in order, and
    whether [pptx.writeFile] was reached.  A slide that throws is the
    last one added. *)
Fixpoint buildPptx (slides : list SlideData) : list (list Call) * bool :=
  match slides with
  | [] => ([], true)
  | s :: rest =>
      let (calls, threw) := buildSlide s in
      if threw then ([calls], false)
      else (calls :: fst (buildPptx rest), snd (buildPptx rest))
  end.

End LayoutEngine.

(* ------------------------------------------------------------------ *)
(** * Notions of the specification *)

(** A formatting span an inline token can be nested inside. *)
Inductive Span :=
| SpanBold
| SpanItalic
| SpanLink (h : Hyperlink).

(** A piece of rendered text with the spans around it, outermost first;
    [monospace] marks the text of a code span. *)
Record Leaf := mkLeaf {
  ancestors : list Span;
  leafText : jsstring;
  monospace : bool
}.

(** The pieces of text under a token, in reading order, each with the
    spans that enclose it. *)
Fixpoint leavesOf (path : list Span) (t : Token) : list Leaf :=
  match t with
  | TStrong ts => flat_map (leavesOf (path ++ [SpanBold])) ts
  | TEm ts => flat_map (leavesOf (path ++ [SpanItalic])) ts
  | TCodespan s => [mkLeaf path (space ++ s ++ space) true]
  | TLink href title ts =>
      flat_map
        (leavesOf (path ++ [SpanLink (mkHyperlink href (link_tooltip href title))]))
        ts
  | TText s (Some ts) => flat_map (leavesOf path) ts
  | TText s None => [mkLeaf path s false]
  | TOther raw => if str_truthy raw then [mkLeaf path raw false] else []
  end.

Definition isBold (s : Span) : bool :=
  match s with SpanBold => true | _ => false end.
Definition isItalic (s : Span) : bool :=
  match s with SpanItalic => true | _ => false end.

(** The innermost hyperlink of a path, or the inherited one. *)
Definition innermostLink (path : list Span) (inherited : option Hyperlink)
  : option Hyperlink :=
  fold_left (fun acc s => match s with SpanLink h => Some h | _ => acc end)
            path inherited.

(** The union of the inherited style and the spans around a leaf. *)
Definition unionStyle (inherited : TextOpts) (l : Leaf) : TextOpts :=
  mkTextOpts
    (bold inherited || existsb isBold (ancestors l))
    (italic inherited || existsb isItalic (ancestors l))
    (if monospace l then Some courier else fontFace inherited)
    (innermostLink (ancestors l) (hyperlink inherited))
    (bullet inherited)
    (breakLine inherited).

(** The rendered text of a token: its markup removed, a code span padded
    with one space on each side. *)
Fixpoint renderedText (t : Token) : jsstring :=
  match t with
  | TStrong ts | TEm ts | TLink _ _ ts | TText _ (Some ts) =>
      flat_map renderedText ts
  | TCodespan s => space ++ s ++ space
  | TText s None => s
  | TOther raw => raw
  end.

(** The text [!shape[name](o)]. *)
Definition shapeText (name o : jsstring) : jsstring :=
  js "!shape[" ++ name ++ js "](" ++ o ++ js ")".

(** A heading that starts a slide. *)
Definition isSlideHeading (b : Block) : bool :=
  match b with Heading depth _ => N.eqb depth 1 | _ => false end.

(** The vertical position a call places its content at, when it is a
    number. *)
Definition call_y (c : Call) : option Q :=
  match c with
  | addTitle _ _ y _ _ => Some y
  | addText _ _ (CNum y) _ _ | addImage _ _ (CNum y) _ _
  | addTable _ _ (CNum y) _ => Some y
  | addText _ _ (CStr _) _ _ | addImage _ _ (CStr _) _ _
  | addTable _ _ (CStr _) _ => None
  | addShape _ fo =>
      match obj_get (js "y") fo with
      | Some (JNum q) => Some q
      | _ => None
      end
  | addNotes _ => None
  end.

(** The value of [yOffset] a call of the placement loop was made with. *)
Definition call_cursor (c : Call) : option cursor :=
  match c with
  | addText _ _ y _ _ | addImage _ _ y _ _ | addTable _ _ y _ => Some y
  | addShape _ fo =>
      match obj_get (js "y") fo with
      | Some (JNum q) => Some (CNum q)
      | Some (JStr s) => Some (CStr s)
      | _ => None
      end
  | addTitle _ _ _ _ _ | addNotes _ => None
  end.

(** [rendersIn x w el c]: the call [c] places the element [el] in the
    column box [x], [w]: its content is that of the element, and its
    horizontal box is that of the column (for a shape, the options are
    those built from the box and the options of the element). *)
Definition rendersIn (x w : Q) (el : SlideElement) (c : Call) : Prop :=
  match el, c with
  | TextBlock runs, addText runs' x' _ w' _ => runs' = runs /\ x' = x /\ w' = w
  | Image href _, addImage path x' _ w' h => path = href /\ x' = x /\ w' = w /\ h = 3
  | Table headers rows, addTable data x' _ w' =>
      data = headers :: rows /\ x' = x /\ w' = w
  | Shape s o, addShape s' fo => s' = s /\ exists y, fo = finalOptionsOf x w o y
  | _, _ => False
  end.

(** The room left below a cursor that is a number. *)
Definition remaining (yOffset : Q) : Q := slideHeight - yOffset - bottomMargin.

(** An element that moves the cursor down by at least the spacing: any
    element but a shape, and a shape whose advance [(h || 1) + 0.2] is a
    number not below 0.2, that is, whose [h] is absent, falsy, [true] or
    a number that is not negative. *)
Definition advancesDown (el : SlideElement) : bool :=
  match el with
  | Shape _ o =>
      match plusSpacing (heightOrOne (obj_get (js "h") (spread o))) with
      | Some a => Qle_bool 0.2 a
      | None => false
      end
  | _ => true
  end.

(** The room left is not at or below the threshold at a cursor: it is
    above it, or it is [NaN]. *)
Definition roomAt (conv : Conversions) (y : cursor) : Prop :=
  match y with
  | CNum q => 0.1 < remaining q
  | CStr s =>
      match String_toNumber conv s with
      | Some v => 0.1 < remaining v
      | None => True
      end
  end.

(** The room left is at or below the threshold at a cursor. *)
Definition fullAt (conv : Conversions) (y : cursor) : Prop :=
  match y with
  | CNum q => remaining q <= 0.1
  | CStr s =>
      match String_toNumber conv s with
      | Some v => remaining v <= 0.1
      | None => False
      end
  end.

(** A call of the placement loop made from a cursor where the room left
    is not at or below the threshold. *)
Definition hasRoom (conv : Conversions) (c : Call) : Prop :=
  exists y, call_cursor c = Some y /\ roomAt conv y.

Definition notBreak (e : SlideElement) : bool := negb (isColumnBreak e).


(** The style a path of spans builds from an inherited one, span by
    span, as the recursion of [parseTextRuns] does. *)
Definition applySpan (o : TextOpts) (s : Span) : TextOpts :=
  match s with
  | SpanBold => set_bold o
  | SpanItalic => set_italic o
  | SpanLink h => set_hyperlink h o
  end.

(** The run of a leaf under an inherited style. *)
Definition runOf (inherited : TextOpts) (l : Leaf) : Run :=
  mkRun (leafText l) (Some (unionStyle inherited l)).

(** A finite table standing for [JSON.parse] where an example needs a
    concrete parser: it knows the text of the empty object. *)
Definition JSON_parse_table (s : jsstring) : option json :=
  if str_eqb s (js "{}") then Some (JObj []) else None.

(** Stand-ins for the three conversions where an example needs concrete
    ones.  The decimal text of a rational, for the rationals with a
    finite expansion the examples use. *)
Fixpoint fractionDigits (fuel : nat) (num den : Z) : jsstring :=
  match fuel with
  | O => []
  | S fuel' =>
      if (num =? 0)%Z then []
      else (48 + Z.to_N (num * 10 / den))%N
           :: fractionDigits fuel' ((num * 10) mod den)%Z den
  end.

Definition Number_toString_decimal (q : Q) : jsstring :=
  let n := Z.abs (Qnum q) in
  let d := Zpos (Qden q) in
  (if (Qnum q <? 0)%Z then js "-" else [])
  ++ js (NilZero.string_of_uint (N.to_uint (Z.to_N (n / d))))
  ++ (if (n mod d =? 0)%Z then [] else js "." ++ fractionDigits 20 (n mod d)%Z d).

(** No string the examples convert is the text of a number. *)
Definition String_toNumber_nan (s : jsstring) : jsnum := None.

(** The conversion of an object: it throws when the object has an own
    key [toString], whose value [JSON.parse] never makes callable, and
    gives the text of [Object.prototype.toString] otherwise.  The only
    array the examples convert is the empty one. *)
Definition Object_toString_table (v : json) : option jsstring :=
  match v with
  | JObj props =>
      match obj_get (js "toString") props with
      | Some _ => None
      | None => Some (js "[object Object]")
      end
  | JArr [] => Some []
  | _ => None
  end.

Definition conversions_table : Conversions :=
  mkConversions Number_toString_decimal String_toNumber_nan Object_toString_table.

(* ------------------------------------------------------------------ *)
(** * The command line *)

Definition ch_dot : N := 46.        (* . *)

(** The code units the pattern letters [m] and [d] match under the
    flag [i]: the letter in either case. *)
Definition is_letter_m (c : N) : bool := ((c =? 109) || (c =? 77))%N.
Definition is_letter_d (c : N) : bool := ((c =? 100) || (c =? 68))%N.

(** The source text of the pattern of [main]. *)
Definition mdPattern : string := "\.md$".

(** Whether [mdPattern] matches with the flag [i]: the string ends with
    a dot, an [m] and a [d]. *)
Definition hasMdSuffix (s : jsstring) : bool :=
  match rev s with
  | d :: m :: dot :: _ => N.eqb dot ch_dot && is_letter_m m && is_letter_d d
  | _ => false
  end.

(** [inFile.replace(mdPattern, '.pptx')] *)
Definition replaceMdSuffix (s : jsstring) : jsstring :=
  match rev s with
  | d :: m :: dot :: r =>
      if N.eqb dot ch_dot && is_letter_m m && is_letter_d d
      then rev r ++ js ".pptx"
      else s
  | _ => s
  end.

(** [maybeOut || inFile.replace(...)]; [None] is [undefined]. *)
Definition outFile (inFile : jsstring) (maybeOut : option jsstring) : jsstring :=
  match maybeOut with
  | Some o => if str_truthy o then o else replaceMdSuffix inFile
  | None => replaceMdSuffix inFile
  end.

(** The names of a run of [main]: the name of the file read and the
    name passed to [pptx.writeFile], which is the library's to turn into
    the file written; [None] when [usage] exits because [inFile] is
    falsy. *)
Definition mainFiles (inFile maybeOut : option jsstring)
  : option (jsstring * jsstring) :=
  match inFile with
  | Some f => if str_truthy f then Some (f, outFile f maybeOut) else None
  | None => None
  end.

(* ------------------------------------------------------------------ *)
(** * Further notions *)

(** The texts of the headings that start a slide, in order. *)
Definition slideTitles (tokens : list Block) : list jsstring :=
  flat_map (fun b =>
              match b with
              | Heading depth t => if N.eqb depth 1 then [t] else []
              | _ => []
              end) tokens.

Definition isParagraph (b : Block) : bool :=
  match b with Paragraph _ _ => true | _ => false end.

(** [a] is a prefix of [b]. *)
Definition prefixOf {A : Type} (a b : list A) : Prop := exists more, b = a ++ more.

(** The member values of [LocalShapeType]. *)
Definition shapeTypes : list LocalShapeType := [RECTANGLE; ELLIPSE; LINE; TRIANGLE].

(** A call that uses the box of its column: the [x] and [w] of a text,
    an image or a table, and for a shape the options built from them. *)
Definition inColumn (x w : Q) (c : Call) : Prop :=
  match c with
  | addText _ x' _ w' _ | addImage _ x' _ w' _ | addTable _ x' _ w' =>
      x' = x /\ w' = w
  | addShape _ fo => exists o y, fo = finalOptionsOf x w o y
  | addTitle _ _ _ _ _ | addNotes _ => False
  end.



(** Two builder states that wrote the same diagnostics and agree on
    whether a slide is open. *)
Definition sameLog (a b : Builder) : Prop :=
  errors a = errors b
  /\ (current a = None <-> current b = None).

(** A builder state seen after [S] more slides were pushed and [E] more
    diagnostics written before it. *)
Definition frame (S : list SlideData) (E : list Diagnostic) (st : Builder) : Builder :=
  mkBuilder (S ++ slides st) (current st) (E ++ errors st).

(** The glyph of a list item: the box of a task item, nothing for a
    plain item. *)
Definition itemGlyph (item : ListItem) : jsstring :=
  if task item then (if checked item then boxChecked else boxUnchecked) else [].

(** A run whose options are present and have neither the bullet nor the
    line-break flag. *)
Definition plainRun (r : Run) : Prop :=
  exists o, options r = Some o /\ bullet o = false /\ breakLine o = false.

(** Every element of a slide satisfies [P]. *)
Definition slideOk (P : SlideElement -> Prop) (s : SlideData) : Prop :=
  Forall P (elements s).

(** Every element held by a builder state satisfies [P]. *)
Definition builderOk (P : SlideElement -> Prop) (st : Builder) : Prop :=
  Forall (slideOk P) (slides st)
  /\ match current st with Some c => slideOk P c | None => True end.

(* ================================================================== *)
(** * Properties *)

(** ** Lists *)

Lemma flat_map_ext_Forall {A B : Type} (f g : A -> list B) (l : list A) :
  Forall (fun a => f a = g a) l -> flat_map f l = flat_map g l.
Proof.
  induction 1 as [|a l Ha _ IH]; simpl; [reflexivity|].
  now rewrite Ha, IH.
Qed.

Lemma map_flat_map {A B C : Type} (f : B -> C) (g : A -> list B) (l : list A) :
  map f (flat_map g l) = flat_map (fun a => map f (g a)) l.
Proof.
  induction l as [|a l IH]; simpl; [reflexivity|].
  now rewrite map_app, IH.
Qed.

Lemma flat_map_flat_map {A B C : Type} (f : B -> list C) (g : A -> list B)
    (l : list A) :
  flat_map f (flat_map g l) = flat_map (fun a => flat_map f (g a)) l.
Proof.
  induction l as [|a l IH]; simpl; [reflexivity|].
  now rewrite flat_map_app, IH.
Qed.

(** ** The inline run resolver *)

Lemma applySpans_union (path : list Span) (o : TextOpts) :
  fold_left applySpan path o = unionStyle o (mkLeaf path [] false).
Proof.
  revert o; induction path as [|s path IH]; intro o.
  - destruct o; unfold unionStyle; simpl.
    now rewrite !orb_false_r.
  - simpl fold_left. rewrite IH. unfold unionStyle; simpl.
    destruct s, o; simpl; rewrite ?orb_true_r, ?orb_false_r; reflexivity.
Qed.

Lemma parseToken_leaves (t : Token) :
  forall path o,
    parseToken t (fold_left applySpan path o) = map (runOf o) (leavesOf path t).
Proof.
  induction t as [ts IH|ts IH|s|href title ts IH|s ts IH|s|raw]
    using Token_ind; intros path o; simpl.
  - rewrite map_flat_map. apply flat_map_ext_Forall.
    eapply Forall_impl; [|exact IH]. intros t Ht; simpl in Ht.
    rewrite <- Ht, fold_left_app. reflexivity.
  - rewrite map_flat_map. apply flat_map_ext_Forall.
    eapply Forall_impl; [|exact IH]. intros t Ht; simpl in Ht.
    rewrite <- Ht, fold_left_app. reflexivity.
  - unfold runOf; simpl. rewrite applySpans_union. reflexivity.
  - rewrite map_flat_map. apply flat_map_ext_Forall.
    eapply Forall_impl; [|exact IH]. intros t Ht; simpl in Ht.
    rewrite <- Ht, fold_left_app. reflexivity.
  - rewrite map_flat_map. apply flat_map_ext_Forall.
    eapply Forall_impl; [|exact IH]. intros t Ht; simpl in Ht.
    now rewrite <- Ht.
  - unfold runOf; simpl. rewrite applySpans_union. reflexivity.
  - destruct (str_truthy raw); simpl; [|reflexivity].
    unfold runOf; simpl. rewrite applySpans_union. reflexivity.
Qed.

Lemma parseToken_text (t : Token) :
  forall o, flat_map text (parseToken t o) = renderedText t.
Proof.
  induction t as [ts IH|ts IH|s|href title ts IH|s ts IH|s|raw]
    using Token_ind; intro o; simpl;
    try (rewrite flat_map_flat_map; apply flat_map_ext_Forall;
         eapply Forall_impl; [|exact IH]; intros t Ht; apply Ht).
  - now rewrite app_nil_r.
  - now rewrite app_nil_r.
  - destruct raw; simpl; [reflexivity|now rewrite app_nil_r].
Qed.

(** C3.  The runs of a token tree, concatenated, are its rendered text;
    they are the leaves of the tree in reading order, each with the
    union of the inherited style and of the bold, italic and hyperlink
    spans around it; and a bold or an italic token yields exactly the
    runs of its children under the added flag, no run of its own. *)
Theorem parseTextRuns_flattens (tokens : list Token) (o : TextOpts) :
  flat_map text (parseTextRuns tokens o) = flat_map renderedText tokens
  /\ parseTextRuns tokens o = map (runOf o) (flat_map (leavesOf []) tokens)
  /\ parseTextRuns [TStrong tokens] o = parseTextRuns tokens (set_bold o)
  /\ parseTextRuns [TEm tokens] o = parseTextRuns tokens (set_italic o).
Proof.
  unfold parseTextRuns. repeat split.
  - rewrite flat_map_flat_map. apply flat_map_ext_Forall.
    apply Forall_forall. intros t _. apply parseToken_text.
  - rewrite map_flat_map. apply flat_map_ext_Forall.
    apply Forall_forall. intros t _. apply (parseToken_leaves t [] o).
  - simpl. now rewrite app_nil_r.
  - simpl. now rewrite app_nil_r.
Qed.

(** The example of the specification: bold text around a link gives a
    bold run, a bold run with the hyperlink, and a bold run. *)
Example bold_around_link :
  let link := mkHyperlink (js "x") (js "x") in
  parseTextRuns
    [TStrong [TText (js "bold and ") None;
              TLink (js "x") None [TText (js "a link") None];
              TText (js " here") None]]
    noOptions
  = [mkRun (js "bold and ") (Some (set_bold noOptions));
     mkRun (js "a link") (Some (set_hyperlink link (set_bold noOptions)));
     mkRun (js " here") (Some (set_bold noOptions))].
Proof. reflexivity. Qed.

(** C6 as stated fails: a token of an unrecognized type inside a bold
    span yields a bold run, not an unstyled one. *)
Lemma unrecognized_token_counterexample :
  exists r,
    parseTextRuns [TStrong [TOther (js "x")]] noOptions = [r]
    /\ text r = js "x"
    /\ options r = Some (set_bold noOptions)
    /\ options r <> Some noOptions.
Proof.
  eexists. repeat split. simpl. discriminate.
Qed.

(** C6, amended.  A token of an unrecognized type yields, at its place
    among the runs, one run with its raw text verbatim and exactly the
    inherited style when the raw text is not empty, and no run when it
    is empty; at the top level the inherited style is the empty one. *)
Theorem unrecognized_token_run (pre post : list Token) (raw : jsstring)
    (o : TextOpts) :
  parseTextRuns (pre ++ TOther raw :: post) o
  = parseTextRuns pre o
    ++ (if str_truthy raw then [mkRun raw (Some o)] else [])
    ++ parseTextRuns post o.
Proof.
  unfold parseTextRuns. rewrite flat_map_app. reflexivity.
Qed.

(** ** Strings and the paragraph patterns *)

Lemma str_eqb_eq (a b : jsstring) : str_eqb a b = true -> a = b.
Proof.
  revert b; induction a as [|x a IH]; intros [|y b] H; simpl in H;
    try discriminate; [reflexivity|].
  apply andb_prop in H as [Hx Hab].
  apply N.eqb_eq in Hx. subst y. f_equal. now apply IH.
Qed.

Lemma str_eqb_refl (a : jsstring) : str_eqb a a = true.
Proof.
  induction a as [|x a IH]; simpl; [reflexivity|].
  now rewrite N.eqb_refl, IH.
Qed.

Lemma dropWhile_snoc (p : N -> bool) (s : jsstring) (c : N) :
  p c = false -> dropWhile p (s ++ [c]) = dropWhile p s ++ [c].
Proof.
  intro Hc. induction s as [|d s IH]; simpl.
  - now rewrite Hc.
  - destruct (p d); [exact IH|reflexivity].
Qed.

(** [trim] leaves a string alone when neither end is white space. *)
Lemma trim_inner (c d : N) (m : jsstring) :
  is_ws c = false -> is_ws d = false -> trim (c :: m ++ [d]) = c :: m ++ [d].
Proof.
  intros Hc Hd. unfold trim.
  assert (H1 : dropWhile is_ws (c :: m ++ [d]) = (c :: m) ++ [d])
    by (simpl; now rewrite Hc).
  rewrite H1, rev_app_distr.
  assert (H2 : dropWhile is_ws (rev [d] ++ rev (c :: m)) = d :: rev (c :: m))
    by (simpl; now rewrite Hd).
  rewrite H2.
  change (rev (d :: rev (c :: m))) with (rev (rev (c :: m)) ++ [d]).
  now rewrite rev_involutive.
Qed.

(** What [trim] keeps of a string that starts with a code unit that is
    not white space starts with that code unit. *)
Lemma trim_head (c : N) (s : jsstring) :
  is_ws c = false -> exists r, trim (c :: s) = c :: r.
Proof.
  intro Hc. unfold trim.
  assert (H1 : dropWhile is_ws (c :: s) = c :: s) by (simpl; now rewrite Hc).
  rewrite H1.
  change (rev (c :: s)) with (rev s ++ [c]).
  rewrite dropWhile_snoc by exact Hc.
  rewrite rev_app_distr. simpl. eauto.
Qed.

Lemma strip_prefix_app (p r : jsstring) : strip_prefix p (p ++ r) = Some r.
Proof.
  induction p as [|a p IH]; simpl; [reflexivity|].
  now rewrite N.eqb_refl.
Qed.

Lemma strip_prefix_head (p s r : jsstring) (a : N) :
  strip_prefix (a :: p) s = Some r -> exists s', s = a :: s'.
Proof.
  destruct s as [|b s]; simpl; [discriminate|].
  destruct (N.eqb a b) eqn:E; [|discriminate].
  apply N.eqb_eq in E. subst b. eauto.
Qed.



(** A paragraph that matches the note pattern does not match the shape
    pattern once trimmed, nor does one that matches the image pattern. *)
Lemma shape_not_note (txt : jsstring) name g2 :
  shapeMatch (trim txt) = Some (name, g2) -> noteMatch txt = None.
Proof.
  intro Hs. unfold noteMatch.
  destruct (strip_prefix (js ">") txt) as [r1|] eqn:E; [|reflexivity].
  exfalso. apply strip_prefix_head in E as [s' ->].
  destruct (trim_head (N_of_ascii ">") s' eq_refl) as [r Hr].
  change (N_of_ascii ">" :: s') with (62%N :: s') in Hr.
  change (N_of_ascii ">" :: s') with (62%N :: s') in Hs.
  rewrite Hr in Hs. discriminate Hs.
Qed.

Lemma strip_prefix_inv (p s r : jsstring) (a : N) :
  strip_prefix (a :: p) s = Some r ->
  exists s', s = a :: s' /\ strip_prefix p s' = Some r.
Proof.
  destruct s as [|b s]; cbn [strip_prefix]; [discriminate|].
  destruct (N.eqb a b) eqn:E; [|discriminate].
  apply N.eqb_eq in E. subst b. eauto.
Qed.

Lemma shape_not_image (t : jsstring) name g2 :
  shapeMatch t = Some (name, g2) -> imgMatch t = None.
Proof.
  unfold shapeMatch, imgMatch. intro Hs.
  destruct (strip_prefix (js "!shape[") t) as [r|] eqn:E; [|discriminate].
  change (js "!shape[") with (33 :: 115 :: js "hape[")%N in E.
  apply strip_prefix_inv in E as [s1 [-> E]].
  apply strip_prefix_inv in E as [s2 [-> _]].
  change (strip_prefix (js "![") (33 :: 115 :: s2))%N with (@None jsstring).
  reflexivity.
Qed.



(** ** The slide model builder *)

Section BuilderProperties.
Variable JSON_parse : jsstring -> option json.

Lemma step_finish_length st token :
  List.length (finish (step JSON_parse st token))
  = (List.length (finish st) + if isSlideHeading token then 1 else 0)%nat.
Proof.
  unfold finish.
  destruct token as [depth txt|txt tokens|items|header rows| |]; simpl.
  - destruct (N.eqb depth 1); simpl.
    + rewrite length_app; simpl. reflexivity.
    + lia.
  - destruct (current st) as [cur|] eqn:E; simpl; [|rewrite E; lia].
    destruct (paragraph _ _ _ _ _); simpl.
    rewrite !length_app; simpl; lia.
  - destruct (current st) as [cur|] eqn:E; simpl; [|rewrite E; lia].
    rewrite !length_app; simpl; lia.
  - destruct (current st) as [cur|] eqn:E; simpl; [|rewrite E; lia].
    rewrite !length_app; simpl; lia.
  - destruct (current st) as [cur|] eqn:E; simpl; [|rewrite E; lia].
    rewrite !length_app; simpl; lia.
  - lia.
Qed.

Lemma fold_step_finish_length tokens :
  forall st,
    List.length (finish (fold_left (step JSON_parse) tokens st))
    = (List.length (finish st) + List.length (filter isSlideHeading tokens))%nat.
Proof.
  induction tokens as [|token tokens IH]; intro st; simpl; [lia|].
  rewrite IH, step_finish_length.
  destruct (isSlideHeading token); simpl; lia.
Qed.

Lemma step_without_slide st token :
  current st = None -> isSlideHeading token = false -> step JSON_parse st token = st.
Proof.
  intros Hc Hh.
  destruct token as [depth txt|txt tokens|items|header rows| |]; simpl in *;
    rewrite ?Hh, ?Hc; reflexivity.
Qed.

Lemma fold_step_without_slide pre :
  forall st,
    current st = None -> forallb (fun b => negb (isSlideHeading b)) pre = true ->
    fold_left (step JSON_parse) pre st = st.
Proof.
  induction pre as [|token pre IH]; intros st Hc Hp; simpl; [reflexivity|].
  simpl in Hp. apply andb_prop in Hp as [Ht Hp].
  apply negb_true_iff in Ht.
  rewrite step_without_slide by assumption. now apply IH.
Qed.

(** C4.  The number of slides is the number of depth-1 headings of the
    token stream, and the tokens before the first depth-1 heading change
    nothing: the slides and the diagnostics are those of the stream
    without them, so they put no element in any slide. *)
Theorem slides_count_headings (tokens : list Block) :
  List.length (fst (parseSlides JSON_parse tokens))
  = List.length (filter isSlideHeading tokens)
  /\ forall pre rest,
       tokens = pre ++ rest ->
       forallb (fun b => negb (isSlideHeading b)) pre = true ->
       parseSlides JSON_parse tokens = parseSlides JSON_parse rest.
Proof.
  split.
  - unfold parseSlides; simpl. now rewrite fold_step_finish_length.
  - intros pre rest -> Hpre. unfold parseSlides.
    rewrite fold_left_app, (fold_step_without_slide pre initial);
      [reflexivity|reflexivity|exact Hpre].
Qed.

(** C5, amended.  A task item met while a slide is open is handled
    after the items before it.  When its content resolves to at least
    one run it appends one text block of its own to the current slide:
    the glyph, U+2611 U+FE0F U+0020 when checked and U+2610 U+0020 when
    not, is put in front of the text of the first run when that text is
    not empty, and is a new leading run without options otherwise.  When
    its content resolves to no run it appends nothing, glyph included,
    wherever it stands in the list. *)
Theorem task_item_glyph (st : Builder) (cur : SlideData) (pre : list ListItem)
    (item : ListItem) :
  current st = Some cur ->
  task item = true ->
  let box := if checked item then [9745; 65039; 32]%N else [9744; 32]%N in
  let before := fold_left listItem pre cur in
  step JSON_parse st (BList (pre ++ [item]))
  = mkBuilder (slides st)
      (Some match parseTextRuns (item_tokens item) noOptions with
            | [] => before
            | r0 :: rest =>
                push_element
                  (TextBlock
                     (if str_truthy (text r0)
                      then mkRun (box ++ text r0) (options r0) :: rest
                      else mkRun box None :: r0 :: rest))
                  before
            end)
      (errors st).
Proof.
  intros Hc Ht box before. simpl. rewrite Hc, fold_left_app. simpl.
  unfold listItem at 1, listItemRuns. rewrite Ht. fold before.
  destruct (parseTextRuns (item_tokens item) noOptions) as [|r0 rest];
    [reflexivity|].
  subst box. destruct (str_truthy (text r0)); reflexivity.
Qed.

(** A shape paragraph with a name that [shapeNameMap] does not resolve,
    or with options that [JSON.parse] rejects, writes one diagnostic and
    leaves the slides and the current slide as they were. *)
Lemma shape_paragraph_error (st : Builder) (cur : SlideData) (txt : jsstring)
    (tokens : option (list Token)) (name g2 : jsstring) :
  current st = Some cur ->
  shapeMatch (trim txt) = Some (name, g2) ->
  shapeNameMap_get name = None \/ JSON_parse g2 = None ->
  exists d,
    step JSON_parse st (Paragraph txt tokens)
    = mkBuilder (slides st) (Some cur) (errors st ++ [d])
    /\ (d = InvalidShapeName name \/ d = InvalidShapeSyntax (trim txt)).
Proof.
  intros Hc Hs Hbad. simpl. rewrite Hc. unfold paragraph.
  rewrite (@shape_not_note txt name g2 Hs), (@shape_not_image (trim txt) name g2 Hs), Hs.
  destruct (shapeNameMap_get name) as [v|] eqn:En.
  - destruct Hbad as [Hbad|Hbad]; [discriminate|]. rewrite Hbad. eauto.
  - eauto.
Qed.

(** C7, the failing input.  [constructor] is not a key of the shape-name
    table, yet the paragraph is accepted: the lookup finds the member of
    [Object.prototype], a shape element is appended and no diagnostic is
    written. *)
Theorem prototype_name_accepted :
  JSON_parse (js "{}") = Some (JObj []) ->
  own_get (js "constructor") shapeNameMap = None
  /\ parseSlides JSON_parse
       [Heading 1 (js "T"); Paragraph (js "!shape[constructor]({})") None]
     = ([mkSlide (js "T")
           [Shape (PrototypeMember (js "constructor")) (JObj [])] None],
        []).
Proof.
  intro H. split; [reflexivity|].
  unfold parseSlides. simpl fold_left.
  change (step JSON_parse initial (Heading 1 (js "T")))
    with (mkBuilder [] (Some (mkSlide (js "T") [] None)) []).
  unfold step. cbn [current slides errors].
  unfold paragraph.
  change (noteMatch (js "!shape[constructor]({})")) with (@None jsstring).
  change (trim (js "!shape[constructor]({})")) with (js "!shape[constructor]({})").
  change (imgMatch (js "!shape[constructor]({})")) with (@None (jsstring * jsstring)).
  change (shapeMatch (js "!shape[constructor]({})"))
    with (Some (js "constructor", js "{}")).
  change (shapeNameMap_get (js "constructor"))
    with (Some (PrototypeMember (js "constructor"))).
  cbv iota beta. rewrite H. reflexivity.
Qed.





End BuilderProperties.

(** ** Objects *)

Lemma own_get_app {V : Type} (k : jsstring) (a b : list (jsstring * V)) :
  own_get k (a ++ b)
  = match own_get k b with Some v => Some v | None => own_get k a end.
Proof.
  induction a as [|[k' v'] a IH]; simpl.
  - destruct (own_get k b); reflexivity.
  - rewrite IH. destruct (own_get k b); reflexivity.
Qed.

(** The layout-computed [y] is the last binding of the literal. *)
Lemma finalOptions_y (x w : Q) (y : cursor) (o : json) :
  obj_get (js "y") (finalOptionsOf x w o y) = Some (cursorValue y).
Proof.
  unfold obj_get, finalOptionsOf. rewrite !own_get_app. reflexivity.
Qed.

(** Any other key is read from the options of the shape first, and from
    the defaults [x] and [w] of the column after them. *)
Lemma finalOptions_other (k : jsstring) (x w : Q) (y : cursor) (o : json) :
  str_eqb k (js "y") = false ->
  obj_get k (finalOptionsOf x w o y)
  = match obj_get k (spread o) with
    | Some v => Some v
    | None =>
        if str_eqb k (js "w") then Some (JNum w)
        else if str_eqb k (js "x") then Some (JNum x)
        else None
    end.
Proof.
  intro Hk. unfold obj_get, finalOptionsOf. rewrite !own_get_app.
  cbn [own_get]. rewrite Hk.
  destruct (own_get k (spread o)); [reflexivity|].
  destruct (str_eqb k (js "w")); reflexivity.
Qed.

Lemma finalOptions_h (x w : Q) (y : cursor) (o : json) :
  obj_get (js "h") (finalOptionsOf x w o y) = obj_get (js "h") (spread o).
Proof.
  rewrite finalOptions_other by reflexivity.
  destruct (obj_get (js "h") (spread o)); reflexivity.
Qed.

Lemma finalOptions_cursor (x w : Q) (y : cursor) (o : json) (s : ShapeValue) :
  call_cursor (addShape s (finalOptionsOf x w o y)) = Some y.
Proof.
  unfold call_cursor. rewrite finalOptions_y. now destruct y.
Qed.

(** ** The placement loop *)

Section LayoutProperties.
Variable conv : Conversions.

Lemma noRoom_fullAt (y : cursor) :
  noRoom (remainingHeight conv y) = true <-> fullAt conv y.
Proof.
  destruct y as [q|s]; simpl.
  - apply Qle_bool_iff.
  - destruct (String_toNumber conv s); simpl.
    + apply Qle_bool_iff.
    + split; [discriminate|contradiction].
Qed.

Lemma noRoom_roomAt (y : cursor) :
  noRoom (remainingHeight conv y) = false <-> roomAt conv y.
Proof.
  assert (H : forall r, Qle_bool r 0.1 = false <-> 0.1 < r).
  { intro r. split; intro H.
    - apply Qnot_le_lt. intro Hle. apply Qle_bool_iff in Hle. congruence.
    - destruct (Qle_bool r 0.1) eqn:E; [|reflexivity].
      apply Qle_bool_iff in E. exfalso. exact (Qlt_not_le _ _ H E). }
  destruct y as [q|s]; simpl.
  - apply H.
  - destruct (String_toNumber conv s); simpl; [apply H|].
    split; [trivial|reflexivity].
Qed.

Lemma full_iff (y : Q) :
  noRoom (remainingHeight conv y) = true <-> remaining y <= 0.1.
Proof. apply (noRoom_fullAt y). Qed.

Lemma not_full (y : Q) :
  noRoom (remainingHeight conv y) = false -> 0.1 < remaining y.
Proof. apply (noRoom_roomAt y). Qed.

Lemma room_not_full (y : Q) :
  0.1 < remaining y -> noRoom (remainingHeight conv y) = false.
Proof. apply (noRoom_roomAt y). Qed.

(** Nothing is placed from a cursor that leaves no room. *)
Lemma renderElements_full (elems : list SlideElement) (x : Q) (y : cursor) (w : Q) :
  fullAt conv y -> renderElements conv elems x y w = ([], Returned y).
Proof.
  intro H. apply noRoom_fullAt in H.
  destruct elems as [|el rest]; simpl; [reflexivity|]. now rewrite H.
Qed.

(** *** One element *)

(** What [placeElement] places is the element, in the box of the column,
    at the cursor. *)
Lemma placeElement_call (x : Q) (y : cursor) (w : Q) (el : SlideElement)
    (c : Call) (o : outcome) :
  placeElement conv x y w el = Some (c, o) ->
  rendersIn x w el c /\ inColumn x w c /\ call_cursor c = Some y
  /\ notBreak el = true.
Proof.
  intro H.
  destruct y as [q|s]; destruct el as [runs|href alt|headers rows|shape opts|];
    simpl in H; inversion H; subst; clear H;
    repeat split; try reflexivity;
    try (now exists y); try (now eexists); try apply finalOptions_cursor.
  - now exists opts, (CNum q).
  - now exists opts, (CStr s).
Qed.

Lemma placeElement_break (x : Q) (y : cursor) (w : Q) (el : SlideElement) :
  placeElement conv x y w el = None <-> el = ColumnBreak.
Proof.
  destruct y, el; simpl; split; intro H; try reflexivity; discriminate.
Qed.

(** A column break is skipped. *)
Lemma renderElements_break (rest : list SlideElement) (x : Q) (y : cursor) (w : Q) :
  renderElements conv (ColumnBreak :: rest) x y w = renderElements conv rest x y w.
Proof.
  cbn [renderElements].
  destruct (noRoom (remainingHeight conv y)) eqn:E.
  - apply noRoom_fullAt in E. now rewrite renderElements_full.
  - now destruct y.
Qed.

(** A column laid out in two parts: the second part starts at the cursor
    the first part returns, and is not reached when the first throws. *)
Lemma renderElements_app (pre post : list SlideElement) (x w : Q) :
  forall y : cursor,
    renderElements conv (pre ++ post) x y w
    = match renderElements conv pre x y w with
      | (cs, Returned c) =>
          (cs ++ fst (renderElements conv post x c w),
           snd (renderElements conv post x c w))
      | (cs, Thrown) => (cs, Thrown)
      end.
Proof.
  induction pre as [|el pre IH]; intro y.
  - simpl. now destruct (renderElements conv post x y w).
  - simpl app. cbn [renderElements].
    destruct (noRoom (remainingHeight conv y)) eqn:Efull.
    + apply noRoom_fullAt in Efull. now rewrite renderElements_full.
    + destruct (placeElement conv x y w el) as [[c [y'|]]|].
      * rewrite IH. unfold andThen.
        destruct (renderElements conv pre x y' w) as [cs [c'|]]; reflexivity.
      * reflexivity.
      * apply IH.
Qed.

(** Every call of a column is made from a cursor where the room left is
    not at or below the threshold. *)
Lemma placed_has_room (elems : list SlideElement) (x w : Q) :
  forall y : cursor, Forall (hasRoom conv) (fst (renderElements conv elems x y w)).
Proof.
  induction elems as [|el rest IH]; intro y; [constructor|].
  cbn [renderElements].
  destruct (noRoom (remainingHeight conv y)) eqn:Efull; [constructor|].
  apply noRoom_roomAt in Efull.
  destruct (placeElement conv x y w el) as [[c o]|] eqn:Ep; [|apply IH].
  apply placeElement_call in Ep as [_ [_ [Hc _]]].
  assert (Hroom : hasRoom conv c) by (exists y; split; assumption).
  destruct o as [y'|]; simpl.
  - constructor; [exact Hroom|apply IH].
  - constructor; [exact Hroom|constructor].
Qed.

(** C8.  The placement loop stops placing when the room left in the
    column is at or below the threshold 0.1, and skips what is left of
    the column: every call of a column is made from a cursor where the
    room left is not at or below the threshold; and when the elements
    placed so far return a cursor where it is, whatever follows them in
    the column adds no call and leaves that cursor.  The loop writes
    nothing anywhere else: its result is the calls and the cursor. *)
Theorem layout_stops_when_full (elems : list SlideElement) (x : Q) (y : cursor)
    (w : Q) :
  Forall (hasRoom conv) (fst (renderElements conv elems x y w))
  /\ forall pre post cs c,
       elems = pre ++ post ->
       renderElements conv pre x y w = (cs, Returned c) ->
       fullAt conv c ->
       renderElements conv elems x y w = (cs, Returned c).
Proof.
  split; [apply placed_has_room|].
  intros pre post cs c -> Hpre Hfull.
  rewrite renderElements_app, Hpre, renderElements_full by exact Hfull.
  simpl. now rewrite app_nil_r.
Qed.

(** C1, a defect of the code.  A shape reached with room left is placed
    with the options [{ x, w, ...options, y }]: its [y] is the cursor,
    whatever the options hold; every other key the options hold, [w],
    [h] and also [x], keeps the value of the options; [w] and [x] are
    those of the column when the options have none.  So the origin of
    the layout wins for [y] only: an [x] in the options moves the shape
    out of its column. *)
Theorem shape_options_precedence (pre post : list SlideElement)
    (shape : ShapeValue) (opts : json) (x : Q) (y : cursor) (w : Q)
    (cs : list Call) (c : cursor) :
  renderElements conv pre x y w = (cs, Returned c) ->
  roomAt conv c ->
  let fo := finalOptionsOf x w opts c in
  (exists tail,
     fst (renderElements conv (pre ++ Shape shape opts :: post) x y w)
     = cs ++ addShape shape fo :: tail)
  /\ obj_get (js "y") fo = Some (cursorValue c)
  /\ (forall k v,
        str_eqb k (js "y") = false ->
        obj_get k (spread opts) = Some v -> obj_get k fo = Some v)
  /\ (obj_get (js "w") (spread opts) = None -> obj_get (js "w") fo = Some (JNum w))
  /\ (obj_get (js "x") (spread opts) = None -> obj_get (js "x") fo = Some (JNum x)).
Proof.
  intros Hpre Hroom fo. repeat split.
  - rewrite renderElements_app, Hpre. cbn [renderElements fst].
    apply noRoom_roomAt in Hroom. rewrite Hroom.
    destruct c as [q|s]; cbn [placeElement]; fold fo;
      (destruct (plusSpacing _) as [a|]; [|destruct (textOf _ _)]);
      simpl; eauto.
  - apply finalOptions_y.
  - intros k v Hk Hv. subst fo. now rewrite finalOptions_other, Hv.
  - intro Hn. subst fo. now rewrite finalOptions_other, Hn.
  - intro Hn. subst fo. now rewrite finalOptions_other, Hn.
Qed.

End LayoutProperties.

(** ** Columns *)

Lemma findIndex_none {A : Type} (p : A -> bool) (l : list A) :
  forallb (fun a => negb (p a)) l = true -> findIndex p l = (-1)%Z.
Proof.
  induction l as [|a l IH]; simpl; [reflexivity|].
  intro H. apply andb_prop in H as [Ha Hl].
  apply negb_true_iff in Ha. rewrite Ha, (IH Hl). reflexivity.
Qed.

Lemma findIndex_first {A : Type} (p : A -> bool) (pre post : list A) (a : A) :
  forallb (fun a => negb (p a)) pre = true -> p a = true ->
  findIndex p (pre ++ a :: post) = Z.of_nat (List.length pre).
Proof.
  intros Hpre Ha. induction pre as [|b pre IH].
  - simpl. now rewrite Ha.
  - simpl in Hpre. apply andb_prop in Hpre as [Hb Hpre].
    apply negb_true_iff in Hb.
    simpl app. cbn [findIndex]. rewrite Hb, (IH Hpre).
    destruct (Z.eqb_spec (Z.of_nat (List.length pre)) (-1)); [lia|].
    cbn [List.length]. lia.
Qed.

Lemma slice_before {A : Type} (pre post : list A) (a : A) :
  slice (pre ++ a :: post) 0 (Some (Z.of_nat (List.length pre))) = pre.
Proof.
  unfold slice, relativeIndex. rewrite length_app. cbn [List.length].
  destruct (Z.ltb_spec 0 0); [lia|].
  destruct (Z.ltb_spec (Z.of_nat (List.length pre)) 0); [lia|].
  rewrite Z.min_l, Z.min_l by lia.
  rewrite Z.sub_0_r, Nat2Z.id. simpl skipn.
  rewrite firstn_app, Nat.sub_diag, firstn_all. simpl. apply app_nil_r.
Qed.

Lemma slice_after {A : Type} (pre post : list A) (a : A) :
  slice (pre ++ a :: post) (Z.of_nat (List.length pre) + 1) None = post.
Proof.
  unfold slice, relativeIndex. rewrite length_app. cbn [List.length].
  destruct (Z.ltb_spec (Z.of_nat (List.length pre) + 1) 0); [lia|].
  rewrite Z.min_l by lia.
  replace (Z.to_nat (Z.of_nat (List.length pre) + 1)) with (List.length pre + 1)%nat by lia.
  replace (Z.to_nat _) with (List.length post) by lia.
  rewrite skipn_app, skipn_all2 by lia.
  replace (List.length pre + 1 - List.length pre)%nat with 1%nat by lia.
  simpl. apply firstn_all.
Qed.

Lemma forallb_app_inv {A : Type} (p : A -> bool) (a b : list A) :
  forallb p (a ++ b) = true -> forallb p a = true /\ forallb p b = true.
Proof. rewrite forallb_app. apply andb_prop. Qed.

Lemma first_break (elements : list SlideElement) :
  forallb notBreak elements = true
  \/ exists pre post,
       elements = pre ++ ColumnBreak :: post /\ forallb notBreak pre = true.
Proof.
  induction elements as [|el rest IH]; [now left|].
  destruct el as [runs|href alt|headers rows|shape opts|];
    try (destruct IH as [H|[pre [post [-> Hpre]]]];
         [left; exact H
         |right; eexists (_ :: pre), post; split; [reflexivity|exact Hpre]]).
  right. exists [], rest. split; reflexivity.
Qed.

Lemma call_cursor_y (c : Call) (q : Q) :
  call_cursor c = Some (CNum q) -> call_y c = Some q.
Proof.
  destruct c as [t x y w h|n|runs x y w h|p x y w h|d x y w|s fo]; simpl;
    try discriminate; try (intro H; inversion H; reflexivity).
  destruct (obj_get (js "y") fo) as [[| | | | |]|]; try discriminate.
  - intro H. inversion H. reflexivity.
Qed.

Section ColumnProperties.
Variable conv : Conversions.


(** From a cursor that is a number with room left, the first element of
    a column that is not a break is placed, at that cursor. *)
Lemma first_placed_at (elems : list SlideElement) (x y w : Q) :
  0.1 < remaining y ->
  existsb notBreak elems = true ->
  exists c tail, fst (renderElements conv elems x y w) = c :: tail
                 /\ call_y c = Some y.
Proof.
  intros Hroom. induction elems as [|el rest IH]; intro Hex; [discriminate|].
  cbn [renderElements]. rewrite (room_not_full conv y Hroom).
  destruct (placeElement conv x y w el) as [[c o]|] eqn:Ep.
  - apply placeElement_call in Ep as [_ [_ [Hc _]]].
    apply call_cursor_y in Hc.
    destruct o; simpl; eexists _, _; split; try reflexivity; exact Hc.
  - apply placeElement_break in Ep. subst el. apply IH. exact Hex.
Qed.

Lemma renderColumns_single (elements : list SlideElement) :
  forallb notBreak elements = true ->
  renderColumns conv elements = [renderElements conv elements 0.5 1.2 9.0].
Proof.
  intro H. unfold renderColumns.
  now rewrite (findIndex_none isColumnBreak elements H).
Qed.

Lemma renderColumns_two (pre post : list SlideElement) :
  forallb notBreak pre = true ->
  renderColumns conv (pre ++ ColumnBreak :: post)
  = renderElements conv pre 0.5 1.2 4.5
    :: (if isThrown (snd (renderElements conv pre 0.5 1.2 4.5)) then []
        else [renderElements conv post 5.2 1.2 4.5]).
Proof.
  intro Hpre. unfold renderColumns.
  rewrite (findIndex_first isColumnBreak pre post ColumnBreak Hpre eq_refl).
  destruct (Z.eqb_spec (Z.of_nat (List.length pre)) (-1)); [lia|].
  rewrite slice_before, slice_after.
  destruct (isThrown _); reflexivity.
Qed.


End ColumnProperties.

(** ** The cursor *)

Lemma breakLineCount_nonneg (run : Run) : 0 <= breakLineCount run.
Proof.
  unfold breakLineCount. destruct (options run) as [o|]; [|lra].
  destruct (breakLine o); lra.
Qed.

Lemma estimatedLines_from (runs : list Run) :
  forall acc, acc <= fold_left (fun a run => a + breakLineCount run) runs acc.
Proof.
  induction runs as [|run runs IH]; intro acc; simpl; [lra|].
  specialize (IH (acc + breakLineCount run)).
  pose proof (breakLineCount_nonneg run). lra.
Qed.

(** With more room than the threshold, the height of a text box is more
    than 0.1 and no more than the room. *)
Lemma estimatedHeight_bounds (runs : list Run) (r : Q) :
  0.1 < r ->
  0.1 < Math_min r (estimatedLines runs * 0.5)
  /\ Math_min r (estimatedLines runs * 0.5) <= r.
Proof.
  intro H. unfold Math_min.
  pose proof (estimatedLines_from runs 1) as Hl. fold (estimatedLines runs) in Hl.
  destruct (Qle_bool r _) eqn:E; [lra|].
  assert (~ r <= estimatedLines runs * 0.5)
    by (intro Hle; apply Qle_bool_iff in Hle; congruence).
  apply Qnot_le_lt in H0. lra.
Qed.

Lemma estimatedHeight_pos (runs : list Run) (y : Q) :
  0.1 < remaining y ->
  0 < Math_min (slideHeight - y - bottomMargin) (estimatedLines runs * 0.5).
Proof.
  intro H. destruct (estimatedHeight_bounds runs (remaining y) H) as [H1 _].
  unfold remaining in H1. lra.
Qed.

Lemma cons_increasing (y y' : Q) (ys : list Q) :
  y < y' -> Forall (Qle y') ys -> StronglySorted Qlt ys ->
  Forall (Qle y) (y :: ys) /\ StronglySorted Qlt (y :: ys).
Proof.
  intros Hlt Hall Hs. split.
  - constructor; [lra|]. eapply Forall_impl; [|exact Hall]. intros v Hv.
    simpl in Hv. lra.
  - constructor; [exact Hs|]. eapply Forall_impl; [|exact Hall]. intros v Hv.
    simpl in Hv. lra.
Qed.

Section CursorProperties.
Variable conv : Conversions.

(** An element that advances the cursor down, placed at a cursor that is
    a number with room left, leaves a cursor that is a number, at least
    the spacing further down. *)
Lemma placeElement_down (x y w : Q) (el : SlideElement) :
  advancesDown el = true -> 0.1 < remaining y ->
  (el = ColumnBreak /\ placeElement conv x y w el = None)
  \/ exists c y',
       placeElement conv x y w el = Some (c, Returned (CNum y'))
       /\ call_y c = Some y /\ y + 0.2 <= y'.
Proof.
  intros Hel Hroom.
  destruct el as [runs|href alt|headers rows|shape opts|].
  - right. eexists _, _. split; [reflexivity|]. split; [reflexivity|].
    destruct (estimatedHeight_bounds runs (remaining y) Hroom) as [H1 _].
    unfold remaining in H1. lra.
  - right. eexists _, _. split; [reflexivity|]. split; [reflexivity|]. lra.
  - right. eexists _, _. split; [reflexivity|]. split; [reflexivity|].
    assert (0 <= inject_Z (Z.of_nat (List.length rows))).
    { change 0 with (inject_Z 0). rewrite <- Zle_Qle. lia. }
    lra.
  - right. cbn [placeElement]. rewrite finalOptions_h. simpl in Hel.
    destruct (plusSpacing _) as [a|]; [|discriminate].
    eexists _, _. split; [reflexivity|]. split.
    + apply call_cursor_y. apply finalOptions_cursor.
    + apply Qle_bool_iff in Hel. lra.
  - now left.
Qed.

(** The cursor of a column only moves down when every shape of the
    column advances it by at least the spacing. *)
Lemma column_increasing (elems : list SlideElement) (x w : Q) :
  forall y : Q,
    forallb advancesDown elems = true ->
    exists ys,
      map call_y (fst (renderElements conv elems x y w)) = map Some ys
      /\ Forall (Qle y) ys /\ StronglySorted Qlt ys.
Proof.
  induction elems as [|el rest IH]; intros y Hadv.
  - exists []. repeat split; constructor.
  - simpl in Hadv. apply andb_prop in Hadv as [Hel Hrest].
    cbn [renderElements].
    destruct (noRoom (remainingHeight conv y)) eqn:Efull.
    { exists []. repeat split; constructor. }
    apply not_full in Efull.
    destruct (placeElement_down x y w el Hel Efull)
      as [[-> Hp]|[c [y' [Hp [Hc Hy']]]]]; rewrite Hp.
    + apply (IH y Hrest).
    + destruct (IH y' Hrest) as [ys [Hm [Hall Hs]]].
      exists (y :: ys). simpl. rewrite Hc, Hm.
      split; [reflexivity|]. apply cons_increasing with y'; [lra|assumption..].
Qed.

(** Such a column returns: nothing throws. *)
Lemma column_returns (elems : list SlideElement) (x w : Q) :
  forall y : Q,
    forallb advancesDown elems = true ->
    isThrown (snd (renderElements conv elems x y w)) = false.
Proof.
  induction elems as [|el rest IH]; intros y Hadv; [reflexivity|].
  simpl in Hadv. apply andb_prop in Hadv as [Hel Hrest].
  cbn [renderElements].
  destruct (noRoom (remainingHeight conv y)) eqn:Efull; [reflexivity|].
  apply not_full in Efull.
  destruct (placeElement_down x y w el Hel Efull)
    as [[-> Hp]|[c [y' [Hp _]]]]; rewrite Hp.
  - apply (IH y Hrest).
  - simpl. apply (IH y' Hrest).
Qed.

(** C10, amended.  When no shape of the slide declares a negative
    height (every [h] is absent, falsy, [true] or a number that is not
    negative, so that the advance [(h || 1) + 0.2] is a number not below
    0.2), the calls of each column have vertical positions that increase
    strictly in the order of the calls, none of them less than the start
    offset 1.2. *)
Theorem cursor_moves_down (elements : list SlideElement) :
  forallb advancesDown elements = true ->
  Forall (fun column =>
            exists ys,
              map call_y (fst column) = map Some ys
              /\ Forall (Qle 1.2) ys /\ StronglySorted Qlt ys)
         (renderColumns conv elements).
Proof.
  intro Hadv.
  destruct (first_break elements) as [Hnone|[pre [post [-> Hpre]]]].
  - rewrite (renderColumns_single conv elements Hnone).
    constructor; [|constructor]. now apply column_increasing.
  - rewrite (renderColumns_two conv pre post Hpre).
    apply forallb_app_inv in Hadv as [H1 H2]. simpl in H2.
    constructor; [now apply column_increasing|].
    destruct (isThrown _); [constructor|].
    constructor; [now apply column_increasing|constructor].
Qed.

(** X11.  Every call of a column uses the box of the column: texts,
    images and tables are placed at its [x] with its [w], and the
    options of a shape are built from them. *)
Theorem calls_in_column (elems : list SlideElement) (x w : Q) :
  forall y : cursor, Forall (inColumn x w) (fst (renderElements conv elems x y w)).
Proof.
  induction elems as [|el rest IH]; intro y; [constructor|].
  cbn [renderElements].
  destruct (noRoom (remainingHeight conv y)); [constructor|].
  destruct (placeElement conv x y w el) as [[c o]|] eqn:Ep; [|apply IH].
  apply placeElement_call in Ep as [_ [Hc _]].
  destruct o; simpl; constructor; try exact Hc; [apply IH|constructor].
Qed.



(** X13.  The column breaks inside a column change nothing: the column
    is laid out as it is without them. *)
Theorem breaks_in_column_ignored (elems : list SlideElement) (x w : Q) :
  forall y : cursor,
    renderElements conv (filter notBreak elems) x y w
    = renderElements conv elems x y w.
Proof.
  induction elems as [|el rest IH]; intro y; [reflexivity|].
  destruct (placeElement conv x y w el) as [[c o]|] eqn:Ep.
  - destruct (placeElement_call conv x y w el c o Ep) as [_ [_ [_ Hnb]]].
    cbn [filter]. rewrite Hnb. cbn [renderElements]. rewrite Ep.
    destruct (noRoom _); [reflexivity|].
    destruct o; [now rewrite IH|reflexivity].
  - apply placeElement_break in Ep. subst el.
    cbn [filter notBreak isColumnBreak negb].
    now rewrite renderElements_break.
Qed.

(** X14.  From a cursor with room left, a column that holds an element
    other than a break places the first of them, at that cursor. *)
Theorem first_element_placed (elems : list SlideElement) (x y w : Q) :
  0.1 < remaining y ->
  existsb notBreak elems = true ->
  exists c tail, fst (renderElements conv elems x y w) = c :: tail
                 /\ call_y c = Some y.
Proof. apply first_placed_at. Qed.

Lemma column_bounded (elems : list SlideElement) (x w : Q) :
  forallb advancesDown elems = true ->
  forall (n : nat) (y : Q),
    slideHeight - bottomMargin - 0.1 - 0.2 * inject_Z (Z.of_nat n) <= y ->
    (List.length (fst (renderElements conv elems x y w)) <= n)%nat.
Proof.
  induction elems as [|el rest IH]; intros Hadv n y Hy; [simpl; lia|].
  simpl in Hadv. apply andb_prop in Hadv as [Hel Hrest].
  cbn [renderElements].
  destruct (noRoom (remainingHeight conv y)) eqn:Efull; [simpl; lia|].
  apply not_full in Efull.
  destruct (placeElement_down x y w el Hel Efull)
    as [[-> Hp]|[c [y' [Hp [_ Hy']]]]]; rewrite Hp.
  - now apply (IH Hrest).
  - unfold remaining in Efull.
    destruct n as [|n].
    { exfalso. change (inject_Z (Z.of_nat 0)) with 0 in Hy. lra. }
    assert (Hn : inject_Z (Z.of_nat (S n)) == inject_Z (Z.of_nat n) + 1).
    { rewrite Nat2Z.inj_succ. unfold Z.succ. rewrite inject_Z_plus. reflexivity. }
    rewrite Hn in Hy. simpl. apply le_n_S. apply (IH Hrest). lra.
Qed.

(** X15.  When no shape of the slide declares a negative height, no
    column gets more than 21 calls. *)
Theorem column_holds_21 (elements : list SlideElement) :
  forallb advancesDown elements = true ->
  Forall (fun column => (List.length (fst column) <= 21)%nat)
         (renderColumns conv elements).
Proof.
  intro Hadv.
  assert (Hcol : forall elems x w,
             forallb advancesDown elems = true ->
             (List.length (fst (renderElements conv elems x 1.2 w)) <= 21)%nat).
  { intros elems x w H. apply column_bounded; [exact H|].
    unfold slideHeight, bottomMargin. vm_compute. discriminate. }
  destruct (first_break elements) as [Hnone|[pre [post [-> Hpre]]]].
  - rewrite (renderColumns_single conv elements Hnone).
    constructor; [|constructor]. now apply Hcol.
  - rewrite (renderColumns_two conv pre post Hpre).
    apply forallb_app_inv in Hadv as [H1 H2]. simpl in H2.
    constructor; [now apply Hcol|].
    destruct (isThrown _); [constructor|].
    constructor; [now apply Hcol|constructor].
Qed.

(** No column of a slide throws when every shape of the slide advances
    the cursor by a number. *)
Lemma renderColumns_return (elements : list SlideElement) :
  forallb advancesDown elements = true ->
  existsb (fun column => isThrown (snd column)) (renderColumns conv elements)
  = false.
Proof.
  intro Hadv.
  destruct (first_break elements) as [Hnone|[pre [post [-> Hpre]]]].
  - rewrite (renderColumns_single conv elements Hnone). cbn [existsb].
    now rewrite (column_returns elements 0.5 9.0 1.2 Hadv).
  - rewrite (renderColumns_two conv pre post Hpre).
    apply forallb_app_inv in Hadv as [H1 H2]. simpl in H2.
    rewrite (column_returns pre 0.5 4.5 1.2 H1). cbn [existsb].
    now rewrite (column_returns pre 0.5 4.5 1.2 H1),
                (column_returns post 5.2 4.5 1.2 H2).
Qed.

(** [pptx.writeFile] is reached when no slide has such a shape. *)
Lemma buildPptx_writes (slides : list SlideData) :
  Forall (fun s => forallb advancesDown (elements s) = true) slides ->
  snd (buildPptx conv slides) = true.
Proof.
  induction 1 as [|s rest Hs _ IH]; [reflexivity|].
  cbn [buildPptx]. unfold buildSlide.
  now rewrite (renderColumns_return (elements s) Hs).
Qed.

End CursorProperties.

(** ** The presentation *)


(** The first call on every slide added places its title; the slides
    added are the first slides, and all of them when the file is
    written. *)
Lemma buildPptx_titles (conv : Conversions) (slides : list SlideData) :
  map (@hd_error Call) (fst (buildPptx conv slides))
  = map (fun s => Some (addTitle (title s) 0.5 0.3 9.0 0.75))
        (firstn (List.length (fst (buildPptx conv slides))) slides)
  /\ (snd (buildPptx conv slides) = true ->
      List.length (fst (buildPptx conv slides)) = List.length slides).
Proof.
  induction slides as [|s rest [IH1 IH2]]; [split; reflexivity|].
  cbn [buildPptx]. unfold buildSlide.
  destruct (existsb _ _); simpl.
  - split; [reflexivity|discriminate].
  - split; [now rewrite IH1|]. intro H. now rewrite IH2.
Qed.


(* ------------------------------------------------------------------ *)
(** ** More on the paragraph patterns *)

Lemma strip_prefix_sound (p s r : jsstring) :
  strip_prefix p s = Some r -> s = p ++ r.
Proof.
  revert s; induction p as [|a p IH]; intros s H; simpl in *.
  - now inversion H.
  - destruct s as [|b s]; [discriminate|].
    destruct (N.eqb a b) eqn:E; [|discriminate].
    apply N.eqb_eq in E. subst b. f_equal. now apply IH.
Qed.

Lemma splitLast_sound (s a b : jsstring) :
  splitLast s = Some (a, b) ->
  s = a ++ ch_rbracket :: ch_lparen :: b /\ splitLast b = None.
Proof.
  revert a b; induction s as [|c r IH]; intros a b H; [discriminate|].
  cbn [splitLast] in H.
  destruct (splitLast r) as [[a' b']|] eqn:E.
  - inversion H; subst. destruct (IH a' b eq_refl) as [-> Hb].
    split; [reflexivity|exact Hb].
  - destruct r as [|d r']; [discriminate|].
    destruct (N.eqb c ch_rbracket) eqn:Ec; [|discriminate].
    destruct (N.eqb d ch_lparen) eqn:Ed; [|discriminate].
    apply N.eqb_eq in Ec, Ed. subst c d. inversion H; subst.
    split; [reflexivity|].
    cbn [splitLast] in E. destruct (splitLast b) as [[a' b']|]; [discriminate|].
    reflexivity.
Qed.

Lemma strip_rparen_sound (s r : jsstring) :
  strip_rparen s = Some r -> s = r ++ [ch_rparen].
Proof.
  unfold strip_rparen. intro H.
  destruct (rev s) as [|c t] eqn:E; [discriminate|].
  destruct (N.eqb c ch_rparen) eqn:Ec; [|discriminate].
  apply N.eqb_eq in Ec. subst c. inversion H; subst.
  rewrite <- (rev_involutive s), E. reflexivity.
Qed.

(** X7.  A text that matches the shape pattern is exactly [!shape[],
    the captured name, the two code units of the separator, the captured
    options and a closing parenthesis; it holds no line terminator, and
    the captured options hold no further separator: the name extends to
    the last one. *)
Theorem shapeMatch_decodes (t name g2 : jsstring) :
  shapeMatch t = Some (name, g2) ->
  t = shapeText name g2
  /\ forallb is_dot name = true /\ forallb is_dot g2 = true
  /\ splitLast (g2 ++ [ch_rparen]) = None.
Proof.
  unfold shapeMatch. intro H.
  destruct (strip_prefix (js "!shape[") t) as [r|] eqn:Ep; [|discriminate].
  apply strip_prefix_sound in Ep.
  destruct (forallb is_dot r) eqn:Ed; [|discriminate].
  destruct (splitLast r) as [[g1 rest]|] eqn:Es; [|discriminate].
  destruct (strip_rparen rest) as [g|] eqn:Er; [|discriminate].
  inversion H; subst g1 g. clear H.
  apply splitLast_sound in Es as [-> Hrest].
  apply strip_rparen_sound in Er. subst rest.
  rewrite forallb_app in Ed. apply andb_prop in Ed as [Hn Hg].
  cbn [forallb] in Hg. rewrite forallb_app in Hg.
  apply andb_prop in Hg as [_ Hg]. apply andb_prop in Hg as [_ Hg].
  apply andb_prop in Hg as [Hg _].
  repeat split; assumption.
Qed.

Lemma dropWhile_app_all (p : N -> bool) (a b : jsstring) :
  forallb p a = true -> dropWhile p (a ++ b) = dropWhile p b.
Proof.
  induction a as [|c a IH]; simpl; [reflexivity|].
  intro H. apply andb_prop in H as [Hc Ha]. rewrite Hc. now apply IH.
Qed.

Lemma takeWhile_app_all (p : N -> bool) (a b : jsstring) :
  forallb p a = true -> takeWhile p (a ++ b) = a ++ takeWhile p b.
Proof.
  induction a as [|c a IH]; simpl; [reflexivity|].
  intro H. apply andb_prop in H as [Hc Ha]. rewrite Hc. f_equal. now apply IH.
Qed.

Lemma dropWhile_idem (p : N -> bool) (s : jsstring) :
  dropWhile p (dropWhile p s) = dropWhile p s.
Proof.
  induction s as [|c s IH]; simpl; [reflexivity|].
  destruct (p c) eqn:E; [exact IH|]. simpl. now rewrite E.
Qed.

Lemma dropWhile_forallb (p q : N -> bool) (s : jsstring) :
  forallb q s = true -> forallb q (dropWhile p s) = true.
Proof.
  induction s as [|c s IH]; simpl; [reflexivity|].
  intro H. apply andb_prop in H as [Hc Hs].
  destruct (p c); [now apply IH|]. simpl. now rewrite Hc, Hs.
Qed.

Lemma takeWhile_all (p : N -> bool) (s : jsstring) :
  forallb p s = true -> takeWhile p s = s.
Proof.
  intro H. rewrite <- (app_nil_r s) at 1.
  rewrite takeWhile_app_all by exact H. simpl. apply app_nil_r.
Qed.

(** The note pattern on a note: white space may follow the mark, and the
    text of the note is what follows the colon on the same line. *)
Lemma noteMatch_note (ws n : jsstring) :
  forallb is_ws ws = true -> forallb is_dot n = true ->
  noteMatch (js ">" ++ ws ++ js "Note:" ++ n) = Some (dropWhile is_ws n).
Proof.
  intros Hws Hn. unfold noteMatch.
  rewrite strip_prefix_app, dropWhile_app_all by exact Hws.
  change (dropWhile is_ws (js "Note:" ++ n)) with (js "Note:" ++ n).
  rewrite strip_prefix_app.
  now rewrite takeWhile_all by (apply dropWhile_forallb; exact Hn).
Qed.

Lemma trim_dropWhile (s : jsstring) : trim (dropWhile is_ws s) = trim s.
Proof. unfold trim. now rewrite dropWhile_idem. Qed.

Lemma imgMatch_image (alt href : jsstring) :
  forallb (fun c => negb (N.eqb c ch_rbracket)) alt = true ->
  forallb (fun c => negb (N.eqb c ch_rparen)) href = true ->
  href <> [] ->
  imgMatch (js "![" ++ alt ++ js "](" ++ href ++ js ")") = Some (alt, href).
Proof.
  intros Ha Hh Hne. unfold imgMatch.
  rewrite strip_prefix_app.
  rewrite dropWhile_app_all by exact Ha.
  rewrite takeWhile_app_all by exact Ha.
  change (dropWhile (fun c => negb (N.eqb c ch_rbracket)) (js "](" ++ href ++ js ")"))
    with (js "](" ++ href ++ js ")").
  rewrite strip_prefix_app.
  rewrite takeWhile_app_all by exact Hh.
  rewrite dropWhile_app_all by exact Hh.
  change (takeWhile (fun c => negb (N.eqb c ch_rparen)) (js ")")) with (@nil N).
  change (dropWhile (fun c => negb (N.eqb c ch_rparen)) (js ")")) with (js ")").
  change (takeWhile (fun c => negb (N.eqb c ch_rbracket)) (js "](" ++ href ++ js ")"))
    with (@nil N).
  rewrite !app_nil_r.
  destruct href as [|c h]; [congruence|]. reflexivity.
Qed.

(* ------------------------------------------------------------------ *)
(** ** Runs of the parser *)

Lemma parseTextRuns_inherit (tokens : list Token) (o : TextOpts) :
  Forall (fun r => exists o', options r = Some o'
                              /\ bullet o' = bullet o /\ breakLine o' = breakLine o)
         (parseTextRuns tokens o).
Proof.
  unfold parseTextRuns. induction tokens as [|t ts IH]; simpl; [constructor|].
  apply Forall_app. split; [|exact IH].
  pose proof (parseToken_leaves t [] o) as Hl. simpl in Hl. rewrite Hl.
  apply Forall_forall.
  intros r Hr. apply in_map_iff in Hr as [l [<- _]].
  eexists. split; [reflexivity|]. split; reflexivity.
Qed.

Lemma parseTextRuns_plain (tokens : list Token) :
  Forall plainRun (parseTextRuns tokens noOptions).
Proof.
  eapply Forall_impl; [|apply parseTextRuns_inherit].
  intros r [o [Ho [Hb Hl]]]. exists o. now repeat split.
Qed.

Lemma parseTextRuns_text (tokens : list Token) (o : TextOpts) :
  flat_map text (parseTextRuns tokens o) = flat_map renderedText tokens.
Proof.
  unfold parseTextRuns. rewrite flat_map_flat_map. apply flat_map_ext_Forall.
  apply Forall_forall. intros t _. apply parseToken_text.
Qed.

(** X10.  The text of the runs of a list item is the glyph of the item (the
    box of a task item, nothing for a plain item) followed by the
    rendered text of the item, whichever way the glyph was put in.  The
    first run of a plain item has the bullet flag and no run after it
    has. *)
Theorem list_item_text (item : ListItem) (runs : list Run) :
  listItemRuns item = Some runs ->
  flat_map text runs = itemGlyph item ++ flat_map renderedText (item_tokens item)
  /\ (task item = false ->
      exists r0 o rest,
        runs = r0 :: rest /\ options r0 = Some o /\ bullet o = true
        /\ Forall plainRun rest).
Proof.
  unfold listItemRuns, itemGlyph. intro H.
  pose proof (parseTextRuns_text (item_tokens item) noOptions) as Ht.
  pose proof (parseTextRuns_plain (item_tokens item)) as Hp.
  destruct (parseTextRuns (item_tokens item) noOptions) as [|r0 rest];
    [discriminate|].
  inversion Hp as [|? ? Hr0 Hrest]; subst.
  destruct (task item).
  - split; [|discriminate].
    destruct (str_truthy (text r0)); inversion H; subst;
      rewrite <- Ht; destruct (checked item); reflexivity.
  - inversion H; subst. split; [exact Ht|]. intros _.
    eexists _, _, rest. split; [reflexivity|]. split; [reflexivity|].
    split; [reflexivity|exact Hrest].
Qed.




(* ------------------------------------------------------------------ *)
(** ** More on the slide model builder *)

Section BuilderInvariants.
Variable JSON_parse : jsstring -> option json.

Lemma paragraph_title txt tokens cur log :
  title (fst (paragraph JSON_parse txt tokens cur log)) = title cur.
Proof.
  unfold paragraph.
  destruct (noteMatch txt); [reflexivity|].
  destruct (imgMatch (trim txt)) as [[alt href]|]; [reflexivity|].
  destruct (shapeMatch (trim txt)) as [[name g2]|].
  - destruct (shapeNameMap_get name); [|reflexivity].
    destruct (JSON_parse g2); reflexivity.
  - destruct (parseTextRuns _ _); reflexivity.
Qed.

Lemma listItems_title items :
  forall cur, title (fold_left listItem items cur) = title cur.
Proof.
  induction items as [|item items IH]; intro cur; simpl; [reflexivity|].
  rewrite IH. unfold listItem. destruct (listItemRuns item); reflexivity.
Qed.

Lemma step_titles st token :
  map title (finish (step JSON_parse st token))
  = map title (finish st) ++ slideTitles [token].
Proof.
  unfold finish, slideTitles.
  destruct token as [depth txt|txt tokens|items|header rows| |]; simpl.
  - destruct (N.eqb depth 1); simpl.
    + now rewrite map_app.
    + now rewrite app_nil_r.
  - rewrite app_nil_r.
    destruct (current st) as [cur|] eqn:E; simpl; [|now rewrite E].
    pose proof (paragraph_title txt tokens cur (errors st)) as Ht.
    destruct (paragraph _ _ _ _ _) as [cur' log']; simpl in *.
    rewrite !map_app. simpl. now rewrite Ht.
  - rewrite app_nil_r.
    destruct (current st) as [cur|] eqn:E; simpl; [|now rewrite E].
    rewrite !map_app. simpl. now rewrite listItems_title.
  - rewrite app_nil_r.
    destruct (current st) as [cur|] eqn:E; simpl; [|now rewrite E].
    now rewrite !map_app.
  - rewrite app_nil_r.
    destruct (current st) as [cur|] eqn:E; simpl; [|now rewrite E].
    now rewrite !map_app.
  - now rewrite app_nil_r.
Qed.

Lemma fold_step_titles tokens :
  forall st,
    map title (finish (fold_left (step JSON_parse) tokens st))
    = map title (finish st) ++ slideTitles tokens.
Proof.
  induction tokens as [|token tokens IH]; intro st; simpl.
  - now rewrite app_nil_r.
  - rewrite IH, step_titles. unfold slideTitles. simpl.
    now rewrite app_nil_r, <- app_assoc.
Qed.

(** X1.  The titles of the slides are the texts of the depth-1 headings,
    in order.  The first call made on every slide added to the
    presentation places its title in the fixed title box; the slides
    added are the first slides, in order; they are all the slides when
    [pptx.writeFile] is reached, and it is reached when no shape of a
    slide declares a height that is negative or not a number. *)
Theorem slide_titles (conv : Conversions) (tokens : list Block) :
  map title (fst (parseSlides JSON_parse tokens)) = slideTitles tokens
  /\ let built := buildPptx conv (fst (parseSlides JSON_parse tokens)) in
     map (@hd_error Call) (fst built)
     = map (fun t => Some (addTitle t 0.5 0.3 9.0 0.75))
           (firstn (List.length (fst built)) (slideTitles tokens))
     /\ (snd built = true ->
         map (@hd_error Call) (fst built)
         = map (fun t => Some (addTitle t 0.5 0.3 9.0 0.75)) (slideTitles tokens))
     /\ (Forall (fun s => forallb advancesDown (elements s) = true)
                (fst (parseSlides JSON_parse tokens)) ->
         snd built = true).
Proof.
  assert (H : map title (fst (parseSlides JSON_parse tokens)) = slideTitles tokens).
  { unfold parseSlides. simpl. now rewrite fold_step_titles. }
  split; [exact H|]. intro built. subst built.
  destruct (buildPptx_titles conv (fst (parseSlides JSON_parse tokens))) as [H1 H2].
  assert (Hf : map (@hd_error Call)
                 (fst (buildPptx conv (fst (parseSlides JSON_parse tokens))))
               = map (fun t => Some (addTitle t 0.5 0.3 9.0 0.75))
                     (firstn (List.length
                                (fst (buildPptx conv (fst (parseSlides JSON_parse tokens)))))
                             (slideTitles tokens))).
  { rewrite <- H, H1, firstn_map, map_map. reflexivity. }
  split; [exact Hf|]. split.
  - intro Hw. rewrite Hf, (H2 Hw), <- (length_map title), H.
    now rewrite firstn_all.
  - apply buildPptx_writes.
Qed.

(** *** Framing *)

Lemma paragraph_log txt tokens cur log :
  paragraph JSON_parse txt tokens cur log
  = (fst (paragraph JSON_parse txt tokens cur []),
     log ++ snd (paragraph JSON_parse txt tokens cur [])).
Proof.
  unfold paragraph.
  destruct (noteMatch txt); [simpl; now rewrite app_nil_r|].
  destruct (imgMatch (trim txt)) as [[alt href]|]; [simpl; now rewrite app_nil_r|].
  destruct (shapeMatch (trim txt)) as [[name g2]|].
  - destruct (shapeNameMap_get name); [|reflexivity].
    destruct (JSON_parse g2); [simpl; now rewrite app_nil_r|reflexivity].
  - destruct (parseTextRuns _ _); simpl; now rewrite app_nil_r.
Qed.

Lemma step_frame S E st token :
  step JSON_parse (frame S E st) token = frame S E (step JSON_parse st token).
Proof.
  destruct st as [sl [cur|] er]; unfold frame;
    destruct token as [depth txt|txt tokens|items|header rows| |]; simpl;
    try reflexivity.
  - destruct (N.eqb depth 1); [|reflexivity]. simpl. now rewrite app_assoc.
  - rewrite (paragraph_log txt tokens cur (E ++ er)).
    rewrite (paragraph_log txt tokens cur er).
    simpl. now rewrite app_assoc.
  - destruct (N.eqb depth 1); reflexivity.
Qed.

Lemma fold_step_frame tokens :
  forall S E st,
    fold_left (step JSON_parse) tokens (frame S E st)
    = frame S E (fold_left (step JSON_parse) tokens st).
Proof.
  induction tokens as [|token tokens IH]; intros S E st; simpl; [reflexivity|].
  now rewrite step_frame, IH.
Qed.

(** X2.  A token stream cut in front of a depth-1 heading is parsed part
    by part: the slides are those of the first part followed by those of
    the second, and so are the diagnostics. *)
Theorem parseSlides_at_heading (before after : list Block) (t : jsstring) :
  parseSlides JSON_parse (before ++ Heading 1 t :: after)
  = (fst (parseSlides JSON_parse before)
       ++ fst (parseSlides JSON_parse (Heading 1 t :: after)),
     snd (parseSlides JSON_parse before)
       ++ snd (parseSlides JSON_parse (Heading 1 t :: after))).
Proof.
  unfold parseSlides. rewrite fold_left_app. cbn [fold_left].
  set (stA := fold_left (step JSON_parse) before initial).
  assert (Hh : step JSON_parse stA (Heading 1 t)
               = frame (finish stA) (errors stA)
                       (step JSON_parse initial (Heading 1 t))).
  { unfold frame, finish. simpl. now rewrite !app_nil_r. }
  rewrite Hh, fold_step_frame.
  set (r := fold_left (step JSON_parse) after (step JSON_parse initial (Heading 1 t))).
  unfold frame, finish. simpl.
  destruct (current r); [|reflexivity].
  rewrite <- app_assoc. reflexivity.
Qed.

(** *** What is pushed stays *)

Lemma prefixOf_refl {A : Type} (l : list A) : prefixOf l l.
Proof. exists []. now rewrite app_nil_r. Qed.

Lemma prefixOf_trans {A : Type} (a b c : list A) :
  prefixOf a b -> prefixOf b c -> prefixOf a c.
Proof. intros [x ->] [y ->]. exists (x ++ y). now rewrite app_assoc. Qed.

Lemma step_grows st token :
  prefixOf (slides st) (slides (step JSON_parse st token))
  /\ prefixOf (errors st) (errors (step JSON_parse st token))
  /\ prefixOf (removelast (finish st)) (slides (step JSON_parse st token)).
Proof.
  assert (Hfin : prefixOf (removelast (finish st)) (slides st)).
  { unfold finish. destruct (current st).
    - rewrite removelast_last. apply prefixOf_refl.
    - destruct (slides st) as [|s l] using rev_ind.
      + apply prefixOf_refl.
      + rewrite removelast_last. now exists [s]. }
  assert (Hs : prefixOf (slides st) (slides (step JSON_parse st token))).
  { destruct token as [depth txt|txt tokens|items|header rows| |]; simpl;
      try (destruct (current st) as [cur|]; simpl; apply prefixOf_refl).
    - destruct (N.eqb depth 1); [|apply prefixOf_refl]. simpl.
      destruct (current st) as [cur|]; [now exists [cur]|apply prefixOf_refl].
    - destruct (current st) as [cur|]; [|apply prefixOf_refl].
      destruct (paragraph _ _ _ _ _); simpl. apply prefixOf_refl. }
  split; [exact Hs|]. split; [|eapply prefixOf_trans; eassumption].
  destruct token as [depth txt|txt tokens|items|header rows| |]; simpl;
    try (destruct (current st) as [cur|]; simpl; apply prefixOf_refl).
  - destruct (N.eqb depth 1); apply prefixOf_refl.
  - destruct (current st) as [cur|]; [|apply prefixOf_refl].
    rewrite (paragraph_log txt tokens cur (errors st)). simpl. now eexists.
Qed.

Lemma fold_step_grows tokens :
  forall st,
    prefixOf (slides st) (slides (fold_left (step JSON_parse) tokens st))
    /\ prefixOf (errors st) (errors (fold_left (step JSON_parse) tokens st)).
Proof.
  induction tokens as [|token tokens IH]; intro st; simpl.
  - split; apply prefixOf_refl.
  - destruct (step_grows st token) as [Hs [He _]].
    destruct (IH (step JSON_parse st token)) as [Hs' He'].
    split; eapply prefixOf_trans; eassumption.
Qed.

(** X3.  More tokens never change what was settled: the slides of a
    stream but the last one, which is still open, are the first slides
    of any longer stream, and the diagnostics of a stream are the first
    diagnostics of any longer stream. *)
Theorem parseSlides_prefix_stable (before after : list Block) :
  prefixOf (removelast (fst (parseSlides JSON_parse before)))
           (fst (parseSlides JSON_parse (before ++ after)))
  /\ prefixOf (snd (parseSlides JSON_parse before))
              (snd (parseSlides JSON_parse (before ++ after))).
Proof.
  unfold parseSlides. simpl. rewrite fold_left_app.
  set (stA := fold_left (step JSON_parse) before initial).
  destruct (fold_step_grows after stA) as [Hs He].
  split; [|exact He].
  assert (Hfin : prefixOf (removelast (finish stA)) (slides stA)).
  { unfold finish. destruct (current stA).
    - rewrite removelast_last. apply prefixOf_refl.
    - destruct (slides stA) as [|s l] using rev_ind.
      + apply prefixOf_refl.
      + rewrite removelast_last. now exists [s]. }
  eapply prefixOf_trans; [exact Hfin|].
  eapply prefixOf_trans; [exact Hs|].
  unfold finish. destruct (current _); [now eexists|apply prefixOf_refl].
Qed.

(** *** Diagnostics *)

(** The diagnostic of a paragraph does not depend on the slide. *)
Lemma paragraph_diagnostic txt tokens cur cur' :
  snd (paragraph JSON_parse txt tokens cur [])
  = snd (paragraph JSON_parse txt tokens cur' []).
Proof.
  unfold paragraph.
  destruct (noteMatch txt); [reflexivity|].
  destruct (imgMatch (trim txt)) as [[alt href]|]; [reflexivity|].
  destruct (shapeMatch (trim txt)) as [[name g2]|].
  - destruct (shapeNameMap_get name); [|reflexivity].
    destruct (JSON_parse g2); reflexivity.
  - destruct (parseTextRuns _ _); reflexivity.
Qed.

Lemma paragraph_one_diagnostic txt tokens cur :
  (List.length (snd (paragraph JSON_parse txt tokens cur [])) <= 1)%nat.
Proof.
  unfold paragraph.
  destruct (noteMatch txt); [simpl; lia|].
  destruct (imgMatch (trim txt)) as [[alt href]|]; [simpl; lia|].
  destruct (shapeMatch (trim txt)) as [[name g2]|].
  - destruct (shapeNameMap_get name); [|simpl; lia].
    destruct (JSON_parse g2); simpl; lia.
  - destruct (parseTextRuns _ _); simpl; lia.
Qed.

(** A token that is not a paragraph writes nothing. *)
Lemma step_errors_other st token :
  isParagraph token = false -> errors (step JSON_parse st token) = errors st.
Proof.
  destruct token as [depth txt|txt tokens|items|header rows| |]; simpl;
    try discriminate; intros _;
    try (destruct (current st); reflexivity).
  destruct (N.eqb depth 1); reflexivity.
Qed.

(** Any token appends at most one diagnostic. *)
Lemma step_errors_append st token :
  exists ds, errors (step JSON_parse st token) = errors st ++ ds
             /\ (List.length ds <= 1)%nat.
Proof.
  destruct (isParagraph token) eqn:E.
  - destruct token as [depth txt|txt tokens|items|header rows| |];
      try discriminate. simpl.
    destruct (current st) as [cur|];
      [|exists []; rewrite app_nil_r; split; [reflexivity|simpl; lia]].
    rewrite (paragraph_log txt tokens cur (errors st)). simpl.
    eexists. split; [reflexivity|apply paragraph_one_diagnostic].
  - exists []. rewrite app_nil_r. split; [now apply step_errors_other|simpl; lia].
Qed.

Lemma fold_errors_length tokens :
  forall st,
    (List.length (errors (fold_left (step JSON_parse) tokens st))
     <= List.length (errors st) + List.length (filter isParagraph tokens))%nat.
Proof.
  induction tokens as [|token tokens IH]; intro st; simpl; [lia|].
  specialize (IH (step JSON_parse st token)).
  destruct (step_errors_append st token) as [ds [Hds Hlen]].
  destruct (isParagraph token) eqn:E; simpl.
  - rewrite Hds, length_app in IH. lia.
  - rewrite (step_errors_other st token E) in IH. lia.
Qed.

Lemma step_sameLog a b token :
  sameLog a b -> sameLog (step JSON_parse a token) (step JSON_parse b token).
Proof.
  intros [He Hc].
  destruct a as [sa [ca|] ea]; destruct b as [sb [cb|] eb]; simpl in *;
    try (destruct Hc as [H1 H2]; (discriminate (H1 eq_refl) || discriminate (H2 eq_refl)));
    subst eb;
    destruct token as [depth txt|txt tokens|items|header rows| |]; simpl;
    try (split; [reflexivity|split; intro; (discriminate || reflexivity)]);
    try (destruct (N.eqb depth 1); simpl;
         split; try reflexivity; split; intro; (discriminate || reflexivity)).
  rewrite (paragraph_log txt tokens ca ea), (paragraph_log txt tokens cb ea).
  simpl. rewrite (paragraph_diagnostic txt tokens ca cb).
  split; [reflexivity|split; intro; discriminate].
Qed.

Lemma step_sameLog_skip a b token :
  sameLog a b -> isParagraph token = false -> isSlideHeading token = false ->
  sameLog (step JSON_parse a token) b.
Proof.
  intros [He Hc] Hp Hh.
  assert (H : current (step JSON_parse a token) = None <-> current a = None).
  { destruct a as [sa [ca|] ea];
      destruct token as [depth txt|txt tokens|items|header rows| |];
      simpl in *; try discriminate; try rewrite Hh; simpl;
      split; intro; (discriminate || reflexivity). }
  split; [now rewrite step_errors_other|tauto].
Qed.

Lemma fold_sameLog tokens :
  forall a b,
    sameLog a b ->
    sameLog (fold_left (step JSON_parse) tokens a)
            (fold_left (step JSON_parse)
               (filter (fun t => isParagraph t || isSlideHeading t) tokens) b).
Proof.
  induction tokens as [|token tokens IH]; intros a b H; simpl; [exact H|].
  destruct (isParagraph token || isSlideHeading token) eqn:E.
  - simpl. apply IH. now apply step_sameLog.
  - apply orb_false_iff in E as [Ep Eh]. apply IH.
    now apply step_sameLog_skip.
Qed.

(** X4.  Only paragraphs write diagnostics, one at most each.  There
    are never more diagnostics than paragraph tokens; a token that is
    not a paragraph leaves the diagnostics as they are, in any state of
    the builder; any token appends at most one; and the diagnostics of a
    token stream are those of its paragraphs and slide headings alone:
    no other token has a part in them. *)
Theorem diagnostics_from_paragraphs (tokens : list Block) :
  (List.length (snd (parseSlides JSON_parse tokens))
   <= List.length (filter isParagraph tokens))%nat
  /\ (forall st token,
        isParagraph token = false ->
        errors (step JSON_parse st token) = errors st)
  /\ (forall st token,
        exists ds, errors (step JSON_parse st token) = errors st ++ ds
                   /\ (List.length ds <= 1)%nat)
  /\ snd (parseSlides JSON_parse tokens)
     = snd (parseSlides JSON_parse
              (filter (fun t => isParagraph t || isSlideHeading t) tokens)).
Proof.
  split; [apply (fold_errors_length tokens initial)|].
  split; [apply step_errors_other|].
  split; [apply step_errors_append|].
  unfold parseSlides. simpl.
  apply (fold_sameLog tokens initial initial). split; [reflexivity|tauto].
Qed.

End BuilderInvariants.

Section BuilderElements.
Variable JSON_parse : jsstring -> option json.

(** X5.  A paragraph made of the mark, any white space, [Note:] and a
    text without line terminator sets the notes of the current slide to
    that text trimmed, replacing earlier notes; it adds no element and
    writes no diagnostic, whatever its inline tokens and whatever
    [JSON.parse] does. *)
Theorem note_paragraph_sets_notes (st : Builder) (cur : SlideData)
    (ws n : jsstring) (tokens : option (list Token)) :
  current st = Some cur ->
  forallb is_ws ws = true ->
  forallb is_dot n = true ->
  step JSON_parse st (Paragraph (js ">" ++ ws ++ js "Note:" ++ n) tokens)
  = mkBuilder (slides st) (Some (mkSlide (title cur) (elements cur) (Some (trim n))))
              (errors st).
Proof.
  intros Hc Hws Hn. cbn [step]. rewrite Hc. unfold paragraph.
  rewrite noteMatch_note by assumption. rewrite trim_dropWhile. reflexivity.
Qed.

(** X6.  A paragraph that is one image reference, with an alt text free
    of closing brackets and a non-empty href free of closing
    parentheses, appends the image element with that href and alt, and
    nothing else changes. *)
Theorem image_paragraph_appends (st : Builder) (cur : SlideData)
    (alt href : jsstring) (tokens : option (list Token)) :
  current st = Some cur ->
  forallb (fun c => negb (N.eqb c ch_rbracket)) alt = true ->
  forallb (fun c => negb (N.eqb c ch_rparen)) href = true ->
  href <> [] ->
  step JSON_parse st
       (Paragraph (js "![" ++ alt ++ js "](" ++ href ++ js ")") tokens)
  = mkBuilder (slides st)
              (Some (mkSlide (title cur) (elements cur ++ [Image href alt]) (notes cur)))
              (errors st).
Proof.
  intros Hc Ha Hh Hne. cbn [step]. rewrite Hc. unfold paragraph.
  change (noteMatch (js "![" ++ alt ++ js "](" ++ href ++ js ")"))
    with (@None jsstring).
  assert (Ht : trim (js "![" ++ alt ++ js "](" ++ href ++ js ")")
               = js "![" ++ alt ++ js "](" ++ href ++ js ")").
  { replace (js "![" ++ alt ++ js "](" ++ href ++ js ")")
      with (33%N :: (js "[" ++ alt ++ js "](" ++ href) ++ [41%N]).
    - apply trim_inner; reflexivity.
    - simpl. rewrite <- !app_assoc. reflexivity. }
  rewrite Ht, imgMatch_image by assumption. reflexivity.
Qed.

(** *** Elements of the slides *)

Section ElementInvariant.
Variable P : SlideElement -> Prop.
Hypothesis P_image : forall href alt, P (Image href alt).
Hypothesis P_table : forall headers rows, P (Table headers rows).
Hypothesis P_break : P ColumnBreak.
Hypothesis P_shape :
  forall name v o, shapeNameMap_get name = Some v -> P (Shape v o).
Hypothesis P_text :
  forall tokens r rs,
    parseTextRuns tokens noOptions = r :: rs -> P (TextBlock (r :: rs)).
Hypothesis P_item :
  forall item runs, listItemRuns item = Some runs -> P (TextBlock runs).

Lemma push_ok el cur : P el -> slideOk P cur -> slideOk P (push_element el cur).
Proof.
  intros Hel Hc. unfold slideOk, push_element. simpl.
  apply Forall_app. split; [exact Hc|]. constructor; [exact Hel|constructor].
Qed.

Lemma paragraph_ok txt tokens cur log :
  slideOk P cur -> slideOk P (fst (paragraph JSON_parse txt tokens cur log)).
Proof.
  intro Hc. unfold paragraph.
  destruct (noteMatch txt); [exact Hc|].
  destruct (imgMatch (trim txt)) as [[alt href]|]; [now apply push_ok|].
  destruct (shapeMatch (trim txt)) as [[name g2]|].
  - destruct (shapeNameMap_get name) as [v|] eqn:E; [|exact Hc].
    destruct (JSON_parse g2); [|exact Hc]. simpl.
    apply push_ok; [|exact Hc]. now apply P_shape with name.
  - destruct (parseTextRuns _ _) as [|r rs] eqn:E; [exact Hc|]. simpl.
    apply push_ok; [|exact Hc]. now apply P_text with (1 := E).
Qed.

Lemma listItems_ok items :
  forall cur, slideOk P cur -> slideOk P (fold_left listItem items cur).
Proof.
  induction items as [|item items IH]; intros cur Hc; simpl; [exact Hc|].
  apply IH. unfold listItem.
  destruct (listItemRuns item) as [runs|] eqn:E; [|exact Hc].
  apply push_ok; [|exact Hc]. now apply P_item with item.
Qed.

Lemma step_ok st token : builderOk P st -> builderOk P (step JSON_parse st token).
Proof.
  destruct st as [sl [cur|] er]; intros [Hs Hc]; simpl in Hs, Hc;
    destruct token as [depth txt|txt tokens|items|header rows| |]; simpl;
    try (split; simpl; assumption).
  - destruct (N.eqb depth 1); [|split; assumption]. split; simpl.
    + apply Forall_app. split; [exact Hs|]. constructor; [exact Hc|constructor].
    + constructor.
  - pose proof (paragraph_ok txt tokens cur er Hc) as Hp.
    destruct (paragraph _ _ _ _ _); split; simpl; assumption.
  - split; simpl; [exact Hs|]. now apply listItems_ok.
  - split; simpl; [exact Hs|]. now apply push_ok.
  - split; simpl; [exact Hs|]. now apply push_ok.
  - destruct (N.eqb depth 1); [|split; assumption]. split; simpl.
    + exact Hs.
    + constructor.
Qed.

Lemma parseSlides_ok tokens : Forall (slideOk P) (fst (parseSlides JSON_parse tokens)).
Proof.
  unfold parseSlides. simpl.
  assert (H : forall st, builderOk P st ->
                         builderOk P (fold_left (step JSON_parse) tokens st)).
  { induction tokens as [|token tokens IH]; intros st Hst; simpl; [exact Hst|].
    apply IH. now apply step_ok. }
  destruct (H initial) as [Hs Hc]; [split; constructor|].
  unfold finish. destruct (current _); [|exact Hs].
  apply Forall_app. split; [exact Hs|]. constructor; [exact Hc|constructor].
Qed.

End ElementInvariant.


(** X8.  The kind of every shape element of a parsed slide is one of the
    four values [rect], [ellipse], [line] and [triangle] of the enum, or
    a member of [Object.prototype] found by its name. *)
Theorem shape_kinds (tokens : list Block) :
  Forall (fun s =>
            Forall (fun el =>
                      match el with
                      | Shape (EnumMember k) _ => In k shapeTypes
                      | Shape (PrototypeMember name) _ => In name objectPrototypeKeys
                      | _ => True
                      end) (elements s))
         (fst (parseSlides JSON_parse tokens)).
Proof.
  apply parseSlides_ok; try exact I; try (intros; exact I).
  intros name v o H. unfold shapeNameMap_get in H.
  destruct (own_get name shapeNameMap) as [k|] eqn:E.
  - inversion H; subst v. clear H.
    unfold shapeNameMap in E. cbn [own_get] in E.
    repeat match type of E with
           | context [str_eqb name ?key] => destruct (str_eqb name key)
           end;
      inversion E; subst; unfold shapeTypes; simpl; auto.
  - destruct (existsb (str_eqb name) objectPrototypeKeys) eqn:Ex; [|discriminate].
    inversion H; subst v.
    apply existsb_exists in Ex as [k [Hin Heq]].
    apply str_eqb_eq in Heq. now subst k.
Qed.

End BuilderElements.

(* ------------------------------------------------------------------ *)
(** ** The command line *)

(** X16.  Without an output argument, for an input name that ends with
    a dot, an [m] and a [d] in either case, the name passed to
    [pptx.writeFile] is the input name with that ending replaced by
    [.pptx]. *)
Theorem outFile_replaces_md (stem : jsstring) (m d : N) :
  is_letter_m m = true -> is_letter_d d = true ->
  mainFiles (Some (stem ++ [ch_dot; m; d])) None
  = Some (stem ++ [ch_dot; m; d], stem ++ js ".pptx").
Proof.
  intros Hm Hd. unfold mainFiles.
  assert (Ht : str_truthy (stem ++ [ch_dot; m; d]) = true)
    by (destruct stem; reflexivity).
  rewrite Ht. unfold outFile, replaceMdSuffix.
  rewrite rev_app_distr.
  change (rev [ch_dot; m; d] ++ rev stem) with (d :: m :: ch_dot :: rev stem).
  cbv iota beta. change (N.eqb ch_dot ch_dot) with true.
  rewrite Hm, Hd. cbn [andb]. now rewrite rev_involutive.
Qed.

(** X17.  Without an output argument, for an input name that does not
    end that way, the name passed to [pptx.writeFile] is the input name
    itself, unchanged: nothing of it is replaced. *)
Theorem outFile_without_md (inFile : jsstring) :
  inFile <> [] -> hasMdSuffix inFile = false ->
  mainFiles (Some inFile) None = Some (inFile, inFile).
Proof.
  intros Hne Hs. unfold mainFiles.
  destruct inFile as [|c f]; [congruence|]. cbn [str_truthy].
  unfold outFile, replaceMdSuffix. unfold hasMdSuffix in Hs.
  destruct (rev (c :: f)) as [|d [|m [|dot r]]]; try reflexivity.
  now rewrite Hs.
Qed.

(* ------------------------------------------------------------------ *)
(** ** Concrete instances *)

(** C5 as stated fails twice: a task item without a run appends nothing,
    glyph included; and the glyph of a checked item is U+2611 U+FE0F
    U+0020, three code units, not U+2611 U+0020. *)
Lemma task_item_counterexample :
  let st := mkBuilder [] (Some (mkSlide (js "T") [] None)) [] in
  step JSON_parse_table st (BList [mkItem true false []]) = st
  /\ step JSON_parse_table st (BList [mkItem true true [TText (js "a") None]])
     = mkBuilder []
         (Some (mkSlide (js "T")
                  [TextBlock [mkRun [9745; 65039; 32; 97]%N (Some noOptions)]]
                  None))
         []
  /\ [9745; 65039; 32; 97]%N <> ([9745; 32] ++ js "a")%N.
Proof.
  split; [reflexivity|]. split; [reflexivity|]. discriminate.
Qed.

(** The failing input of C1: the shape of the right column asks for
    [x] 0.5 and [y] 4.  It is placed at the [y] of the layout, 1.2, and
    at the [x] it asks for, which is the origin of the left column. *)
Lemma shape_options_precedence_witness :
  let opts := JObj [(js "x", JNum 0.5); (js "y", JNum 4)] in
  let fo := finalOptionsOf 5.2 4.5 opts 1.2 in
  renderElements conversions_table [] 5.2 1.2 4.5 = ([], Returned 1.2)
  /\ roomAt conversions_table 1.2
  /\ map fst (renderColumns conversions_table
                [Image (js "a.png") (js "A"); ColumnBreak;
                 Shape (EnumMember RECTANGLE) opts])
     = [[addImage (js "a.png") 0.5 1.2 4.5 3];
        [addShape (EnumMember RECTANGLE) fo]]
  /\ obj_get (js "y") fo = Some (JNum 1.2)
  /\ obj_get (js "x") fo = Some (JNum 0.5).
Proof.
  intros opts fo.
  assert (Hroom : roomAt conversions_table 1.2) by reflexivity.
  pose proof (shape_options_precedence conversions_table [] []
                (EnumMember RECTANGLE) opts 5.2 1.2 4.5 [] 1.2 eq_refl Hroom)
    as [_ [Hy [Hk _]]].
  split; [reflexivity|]. split; [exact Hroom|]. split; [reflexivity|].
  split; [exact Hy|exact (Hk (js "x") (JNum 0.5) eq_refl eq_refl)].
Defined.


Lemma slides_count_headings_witness :
  let pre := [Paragraph (js "lost") (Some [TText (js "lost") None]); Hr] in
  let rest := [Heading 1 (js "A"); Hr; Heading 2 (js "sub"); Heading 1 (js "B")] in
  forallb (fun b => negb (isSlideHeading b)) pre = true
  /\ parseSlides JSON_parse_table (pre ++ rest) = parseSlides JSON_parse_table rest
  /\ List.length (fst (parseSlides JSON_parse_table (pre ++ rest))) = 2%nat.
Proof.
  intros pre rest.
  pose proof (slides_count_headings JSON_parse_table (pre ++ rest)) as [Hn Hp].
  split; [reflexivity|]. split; [exact (Hp pre rest eq_refl eq_refl)|exact Hn].
Defined.

Lemma task_item_glyph_witness :
  let st := mkBuilder [] (Some (mkSlide (js "T") [] None)) [] in
  let item := mkItem true false [TText (js "todo") None] in
  current st = Some (mkSlide (js "T") [] None)
  /\ task item = true
  /\ step JSON_parse_table st (BList [item])
     = mkBuilder []
         (Some (mkSlide (js "T")
                  [TextBlock [mkRun ([9744; 32]%N ++ js "todo") (Some noOptions)]]
                  None))
         [].
Proof.
  intros st item. split; [reflexivity|]. split; [reflexivity|].
  exact (task_item_glyph JSON_parse_table st (mkSlide (js "T") [] None) [] item
           eq_refl eq_refl).
Defined.

Lemma prototype_name_accepted_witness :
  JSON_parse_table (js "{}") = Some (JObj [])
  /\ parseSlides JSON_parse_table
       [Heading 1 (js "T"); Paragraph (js "!shape[constructor]({})") None]
     = ([mkSlide (js "T")
           [Shape (PrototypeMember (js "constructor")) (JObj [])] None],
        []).
Proof.
  split; [reflexivity|].
  exact (proj2 (prototype_name_accepted JSON_parse_table eq_refl)).
Defined.

Lemma layout_stops_when_full_witness :
  let A := Image (js "a.png") (js "A") in
  let c := 1.2 + 3.2 + 3.2 in
  let cs := [addImage (js "a.png") 0.5 1.2 9 3;
             addImage (js "a.png") 0.5 (1.2 + 3.2) 9 3] in
  renderElements conversions_table [A; A] 0.5 1.2 9 = (cs, Returned c)
  /\ remaining c <= 0.1
  /\ renderElements conversions_table [A; A; A; A] 0.5 1.2 9 = (cs, Returned c).
Proof.
  intros A c cs.
  assert (Hfull : remaining c <= 0.1) by (vm_compute; discriminate).
  split; [reflexivity|]. split; [exact Hfull|].
  exact (proj2 (layout_stops_when_full conversions_table [A; A; A; A] 0.5 1.2 9)
               [A; A] [A; A] cs c eq_refl eq_refl Hfull).
Defined.

Lemma cursor_moves_down_witness :
  let elements :=
    [TextBlock [mkRun (js "t") None];
     Shape (EnumMember RECTANGLE) (JObj [(js "h", JNum 1)]);
     ColumnBreak;
     Image (js "a.png") (js "A")] in
  forallb advancesDown elements = true
  /\ Forall (fun column =>
               exists ys,
                 map call_y (fst column) = map Some ys
                 /\ Forall (Qle 1.2) ys /\ StronglySorted Qlt ys)
            (renderColumns conversions_table elements).
Proof.
  intro elements. split; [reflexivity|].
  exact (cursor_moves_down conversions_table elements eq_refl).
Defined.

(** C10 as stated fails: a shape with a negative height moves the
    cursor up, and the element after it is placed above it and above the
    start offset. *)
Lemma cursor_moves_up_counterexample :
  map (fun column => map call_y (fst column))
      (renderColumns conversions_table
         [Shape (EnumMember RECTANGLE) (JObj [(js "h", JNum (-5))]);
          Image (js "a.png") (js "a")])
  = [[Some 1.2; Some (1.2 + (-5 + 0.2))]]
  /\ 1.2 + (-5 + 0.2) < 1.2.
Proof.
  split; [reflexivity|lra].
Qed.


(** The examples of the specification for the builder: a note sets the
    notes and adds no element; a table becomes one table element; an
    unknown shape name gives no element and one diagnostic. *)
Example note_paragraph :
  parseSlides JSON_parse_table
    [Heading 1 (js "T"); Paragraph (js "> Note: remember timeline") None]
  = ([mkSlide (js "T") [] (Some (js "remember timeline"))], []).
Proof. reflexivity. Qed.

Example table_block :
  parseSlides JSON_parse_table
    [Heading 1 (js "T"); BTable [js "A"; js "B"] [[js "1"; js "2"]]]
  = ([mkSlide (js "T") [Table [js "A"; js "B"] [[js "1"; js "2"]]] None], []).
Proof. reflexivity. Qed.

Example unknown_shape_name :
  parseSlides JSON_parse_table
    [Heading 1 (js "T"); Paragraph (js "!shape[hexagon]({})") None]
  = ([mkSlide (js "T") [] None], [InvalidShapeName (js "hexagon")]).
Proof. reflexivity. Qed.

(** The example of the specification for the layout: A and B before the
    break are the first column, A above B; C after it is the second
    column. *)
Example two_columns :
  let A := Image (js "a.png") (js "A") in
  let B := Table [js "h"] [[js "1"]] in
  let C := Image (js "c.png") (js "C") in
  map fst (renderColumns conversions_table [A; B; ColumnBreak; C])
  = [[addImage (js "a.png") 0.5 1.2 4.5 3;
      addTable [[js "h"]; [js "1"]] 0.5 (1.2 + 3.2) 4.5];
     [addImage (js "c.png") 5.2 1.2 4.5 3]].
Proof. reflexivity. Qed.

(** A shape whose height is the string ["2"] turns the cursor into the
    string ["1.220.2"].  The room left is [NaN] from then on, the guard
    of the loop is never true again, and every later element is placed:
    the text with a height that is [NaN], each call at the string the
    cursor has grown into. *)
Example string_cursor :
  let shape := Shape (EnumMember RECTANGLE) (JObj [(js "h", JStr (js "2"))]) in
  let runs := [mkRun (js "t") None] in
  renderElements conversions_table
    [shape; TextBlock runs; Image (js "a.png") (js "A"); Image (js "b.png") (js "B")]
    0.5 1.2 9
  = ([addShape (EnumMember RECTANGLE)
        (finalOptionsOf 0.5 9 (JObj [(js "h", JStr (js "2"))]) 1.2);
      addText runs 0.5 (CStr (js "1.220.2")) 9 None;
      addImage (js "a.png") 0.5 (CStr (js "1.220.2NaN")) 9 3;
      addImage (js "b.png") 0.5 (CStr (js "1.220.2NaN3.2")) 9 3],
     Returned (CStr (js "1.220.2NaN3.23.2"))).
Proof. reflexivity. Qed.

(** A shape whose height is an object with a key [toString] is placed,
    and the addition that follows throws: the rest of the slide and the
    slides after it are not laid out, and [pptx.writeFile] is not
    reached. *)
Example height_throws :
  let opts := JObj [(js "h", JObj [(js "toString", JNum 1)])] in
  let shape := Shape (EnumMember RECTANGLE) opts in
  buildPptx conversions_table
    [mkSlide (js "A") [shape; Image (js "a.png") (js "A")] None;
     mkSlide (js "B") [] None]
  = ([[addTitle (js "A") 0.5 0.3 9.0 0.75;
       addShape (EnumMember RECTANGLE) (finalOptionsOf 0.5 9.0 opts 1.2)]],
     false).
Proof. reflexivity. Qed.

(* ------------------------------------------------------------------ *)
(** ** More concrete instances *)

Lemma shapeMatch_decodes_witness :
  shapeMatch (js "!shape[line]({})") = Some (js "line", js "{}")
  /\ js "!shape[line]({})" = shapeText (js "line") (js "{}").
Proof.
  split; [reflexivity|].
  exact (proj1 (shapeMatch_decodes (js "!shape[line]({})") (js "line") (js "{}")
                  eq_refl)).
Defined.

Lemma list_item_text_witness :
  let item := mkItem true true [TText (js "done") None] in
  listItemRuns item = Some [mkRun (boxChecked ++ js "done") (Some noOptions)]
  /\ flat_map text [mkRun (boxChecked ++ js "done") (Some noOptions)]
     = boxChecked ++ js "done".
Proof.
  intro item. split; [reflexivity|].
  exact (proj1 (list_item_text item
                  [mkRun (boxChecked ++ js "done") (Some noOptions)] eq_refl)).
Defined.

Lemma note_paragraph_sets_notes_witness :
  let st := mkBuilder [] (Some (mkSlide (js "T") [ColumnBreak] (Some (js "old")))) [] in
  forallb is_ws (js " ") = true
  /\ forallb is_dot (js " remember timeline ") = true
  /\ step JSON_parse_table st
       (Paragraph (js ">" ++ js " " ++ js "Note:" ++ js " remember timeline ") None)
     = mkBuilder []
         (Some (mkSlide (js "T") [ColumnBreak] (Some (js "remember timeline")))) [].
Proof.
  intro st. split; [reflexivity|]. split; [reflexivity|].
  exact (note_paragraph_sets_notes JSON_parse_table st
           (mkSlide (js "T") [ColumnBreak] (Some (js "old")))
           (js " ") (js " remember timeline ") None eq_refl eq_refl eq_refl).
Defined.

Lemma image_paragraph_appends_witness :
  let st := mkBuilder [] (Some (mkSlide (js "T") [] None)) [] in
  js "a.png" <> []
  /\ step JSON_parse_table st
       (Paragraph (js "![" ++ js "logo" ++ js "](" ++ js "a.png" ++ js ")") None)
     = mkBuilder [] (Some (mkSlide (js "T") [Image (js "a.png") (js "logo")] None)) [].
Proof.
  intro st.
  assert (Hne : js "a.png" <> []) by discriminate.
  split; [exact Hne|].
  exact (image_paragraph_appends JSON_parse_table st (mkSlide (js "T") [] None)
           (js "logo") (js "a.png") None eq_refl eq_refl eq_refl Hne).
Defined.

Lemma first_element_placed_witness :
  0.1 < remaining 1.2
  /\ exists c tail,
       fst (renderElements conversions_table
              [ColumnBreak; Image (js "a.png") (js "A")] 5.2 1.2 4.5)
       = c :: tail
       /\ call_y c = Some 1.2.
Proof.
  split; [reflexivity|].
  exact (first_element_placed conversions_table
           [ColumnBreak; Image (js "a.png") (js "A")] 5.2 1.2 4.5 eq_refl eq_refl).
Defined.

Lemma column_holds_21_witness :
  let shape := Shape (EnumMember RECTANGLE) (JObj [(js "h", JNum 0.01)]) in
  forallb advancesDown (repeat shape 40) = true
  /\ Forall (fun column => (List.length (fst column) <= 21)%nat)
            (renderColumns conversions_table (repeat shape 40)).
Proof.
  intro shape. split; [reflexivity|].
  exact (column_holds_21 conversions_table (repeat shape 40) eq_refl).
Defined.

Lemma outFile_replaces_md_witness :
  is_letter_m 77 = true /\ is_letter_d 100 = true
  /\ mainFiles (Some (js "talk.Md")) None = Some (js "talk.Md", js "talk.pptx").
Proof.
  split; [reflexivity|]. split; [reflexivity|].
  exact (outFile_replaces_md (js "talk") 77 100 eq_refl eq_refl).
Defined.

Lemma outFile_without_md_witness :
  js "talk.markdown" <> [] /\ hasMdSuffix (js "talk.markdown") = false
  /\ mainFiles (Some (js "talk.markdown")) None
     = Some (js "talk.markdown", js "talk.markdown").
Proof.
  assert (Hne : js "talk.markdown" <> []) by discriminate.
  split; [exact Hne|]. split; [reflexivity|].
  exact (outFile_without_md (js "talk.markdown") Hne eq_refl).
Defined.
